(** * Limbic-Flow: a shallow embedding of the cognitive-state core

    Python floats are modelled as real numbers ([R]); [math.exp] and
    [math.log] are [exp] and [ln]; Python's [max]/[min] on two floats are
    [Rmax]/[Rmin].  Wall-clock reads ([time.time()]) and random draws
    ([random.random()], [np.random.random()]) are explicit inputs. *)

From Stdlib Require Import Reals Lra Lia Sorting.Sorted.
From stdpp Require Import base list strings pretty.

Open Scope R_scope.

(** Python's [max(lo, min(hi, x))]. *)
Definition py_clamp (lo hi x : R) : R := Rmax lo (Rmin hi x).

(** Outcome of a Python call: a returned value or a raised exception
    (named by its class). *)
Inductive py_result (A : Type) : Type :=
| Return (a : A)
| Raise (exn : string).
Arguments Return {A} a.
Arguments Raise {A} exn.

(** The largest finite float, [(2 - 2^-52) * 2^1023]. *)
Definition DBL_MAX : R := (2 - / 2 ^ 52) * 2 ^ 1023.

(** [math.exp(x)]: [OverflowError] when the result exceeds the largest
    finite float (up to rounding). *)
Definition math_exp (x : R) : py_result R :=
  if Rlt_dec DBL_MAX (exp x) then Raise "OverflowError" else Return (exp x).

(** ** src/limbic_flow/core/emotion_engine.py *)
Module EmotionEngine.

(** The attributes of an [EmotionEngine] instance that [update] reads
    and writes. *)
Record engine := mkEngine {
  pleasure : R;
  arousal : R;
  dominance : R;
  dopamine : R;
  cortisol : R;
  last_update_time : R
}.

(** Half-life parameters (seconds), fixed in [__init__]. *)
Definition half_life_pleasure : R := 3600.
Definition half_life_arousal : R := 1800.
Definition half_life_dominance : R := 2700.
Definition half_life_dopamine : R := 300.
Definition half_life_cortisol : R := 600.

(** [__init__] at wall-clock time [now]. *)
Definition init (now : R) : engine := mkEngine 0 0 0 0.5 0.3 now.

(** The value of [math.exp(-math.log(2) * time_delta / half_life)]. *)
Definition decay_factor (time_delta half_life : R) : R :=
  exp (- ln 2 * time_delta / half_life).

(** [math.exp(-math.log(2) * time_delta / half_life)]: the factor, or the
    [OverflowError] of [math.exp]. *)
Definition math_decay (time_delta half_life : R) : py_result R :=
  math_exp (- ln 2 * time_delta / half_life).

(** The five factors are computed before any attribute is written: a
    raising call leaves the instance as it was. *)
Definition _apply_half_life_decay (e : engine) (time_delta : R)
    : py_result engine :=
  match math_decay time_delta half_life_pleasure with
  | Raise x => Raise x
  | Return decay_factor_pleasure =>
  match math_decay time_delta half_life_arousal with
  | Raise x => Raise x
  | Return decay_factor_arousal =>
  match math_decay time_delta half_life_dominance with
  | Raise x => Raise x
  | Return decay_factor_dominance =>
  match math_decay time_delta half_life_dopamine with
  | Raise x => Raise x
  | Return decay_factor_dopamine =>
  match math_decay time_delta half_life_cortisol with
  | Raise x => Raise x
  | Return decay_factor_cortisol =>
      Return (mkEngine (pleasure e * decay_factor_pleasure)
                (arousal e * decay_factor_arousal)
                (dominance e * decay_factor_dominance)
                (0.5 + (dopamine e - 0.5) * decay_factor_dopamine)
                (0.3 + (cortisol e - 0.3) * decay_factor_cortisol)
                (last_update_time e))
  end end end end end.

Definition _update_neurotransmitters (e : engine) : engine :=
  let dopamine_change := pleasure e * 0.1 in
  let cortisol_change := Rabs (arousal e) * 0.1 in
  mkEngine (pleasure e) (arousal e) (dominance e)
           (dopamine e + dopamine_change) (cortisol e + cortisol_change)
           (last_update_time e).

Definition _clamp_values (e : engine) : engine :=
  mkEngine (py_clamp (-1) 1 (pleasure e))
           (py_clamp (-1) 1 (arousal e))
           (py_clamp (-1) 1 (dominance e))
           (py_clamp 0 1 (dopamine e))
           (py_clamp 0 1 (cortisol e))
           (last_update_time e).

(** [update(input_pleasure, input_arousal, input_dominance)] called at
    wall-clock time [current_time]: the instance state after the call and
    its outcome, the new state ([get_state()] is a projection of it) or
    the exception.  [last_update_time] is written before the decay, so a
    raising call still moves it to [current_time]. *)
Definition update (e : engine) (current_time input_pleasure input_arousal
    input_dominance : R) : engine * py_result engine :=
  let time_delta := current_time - last_update_time e in
  let e1 := mkEngine (pleasure e) (arousal e) (dominance e)
                     (dopamine e) (cortisol e) current_time in
  match _apply_half_life_decay e1 time_delta with
  | Raise x => (e1, Raise x)
  | Return e2 =>
      let e3 := mkEngine (pleasure e2 + input_pleasure)
                         (arousal e2 + input_arousal)
                         (dominance e2 + input_dominance)
                         (dopamine e2) (cortisol e2) (last_update_time e2) in
      let e4 := _update_neurotransmitters e3 in
      let e5 := _clamp_values e4 in
      (e5, Return e5)
  end.

(** A stimulus: the wall-clock time of the call and the three deltas. *)
Record stimulus := mkStimulus {
  at_time : R; d_pleasure : R; d_arousal : R; d_dominance : R
}.

(** The states returned by the calls of a sequence of [update] calls.  A
    call that raises returns nothing; the next call starts from the
    instance as the raising call left it. *)
Fixpoint run (e : engine) (ss : list stimulus) : list engine :=
  match ss with
  | [] => []
  | s :: ss' =>
      let '(e', r) := update e (at_time s) (d_pleasure s) (d_arousal s)
                        (d_dominance s) in
      match r with
      | Return st => st :: run e' ss'
      | Raise _ => run e' ss'
      end
  end.

Definition in_range (e : engine) : Prop :=
  -1 <= pleasure e <= 1 /\ -1 <= arousal e <= 1 /\ -1 <= dominance e <= 1 /\
  0 <= dopamine e <= 1 /\ 0 <= cortisol e <= 1.

End EmotionEngine.

(** ** Python-level helpers shared by the modules below *)


(** A float as numpy computes it: finite, infinite or NaN. *)
Inductive pyfloat : Type :=
| Fin (r : R)
| PInf
| NInf
| NaN.

(** [x / y] on numpy float64 scalars. *)
Definition np_div (x y : R) : pyfloat :=
  if Req_EM_T y 0 then
    (if Req_EM_T x 0 then NaN else if Rlt_dec 0 x then PInf else NInf)
  else Fin (x / y).

(** [x * c] for a positive constant [c]. *)
Definition fmul_pos (x : pyfloat) (c : R) : pyfloat :=
  match x with Fin r => Fin (r * c) | v => v end.

(** [x + r] for a finite [r]. *)
Definition fadd_fin (x : pyfloat) (r : R) : pyfloat :=
  match x with Fin a => Fin (a + r) | v => v end.

(** Python's [x < y] on floats: every comparison with NaN is false. *)
Definition py_lt (x y : pyfloat) : bool :=
  match x, y with
  | Fin a, Fin b => if Rlt_dec a b then true else false
  | NInf, Fin _ | NInf, PInf | Fin _, PInf => true
  | _, _ => false
  end.

(** Python's [l[:k]] for an integer [k] (a negative [k] drops the last
    [-k] elements). *)
Definition py_slice_prefix {A} (k : Z) (l : list A) : list A :=
  if (0 <=? k)%Z then firstn (Z.to_nat k) l
  else firstn (Z.to_nat (Z.of_nat (length l) + k)) l.

(** [l.sort(key=key, reverse=True)]: CPython reverses the list, sorts it
    stably in ascending order with [<] on the keys, and reverses it again.
    The ascending stable sort is an insertion sort that places each element
    after every element whose key is not greater than its own; it returns
    the same list as CPython's sort whenever the keys are totally ordered
    (no NaN among them). *)
Fixpoint sort_insert {A} (key : A -> pyfloat) (x : A) (l : list A) : list A :=
  match l with
  | [] => [x]
  | y :: l' => if py_lt (key x) (key y) then x :: y :: l'
               else y :: sort_insert key x l'
  end.

Definition sort_asc {A} (key : A -> pyfloat) (l : list A) : list A :=
  fold_left (fun acc x => sort_insert key x acc) l [].

Definition py_sort_reverse {A} (key : A -> pyfloat) (l : list A) : list A :=
  rev (sort_asc key (rev l)).

(** A Python dict kept in insertion order: [d[k] = v] replaces the value
    in place when [k] is present and appends otherwise. *)
Fixpoint dict_set {V} (k : string) (v : V) (d : list (string * V))
    : list (string * V) :=
  match d with
  | [] => [(k, v)]
  | (k', v') :: d' => if String.eqb k k' then (k, v) :: d'
                      else (k', v') :: dict_set k v d'
  end.

Fixpoint dict_get {V} (k : string) (d : list (string * V)) : option V :=
  match d with
  | [] => None
  | (k', v') :: d' => if String.eqb k k' then Some v' else dict_get k d'
  end.

(** ** src/limbic_flow/core/hippocampus/__init__.py *)
Module Hippocampus.

(** The ["pad"] entry of a memory dict: [None] stands for an absent key. *)
Record pad_t := mkPadDict {
  pad_pleasure_key : option R;
  pad_arousal_key : option R;
  pad_dominance_key : option R
}.

(** The literal [{"pleasure": p, "arousal": a, "dominance": d}]. *)
Definition mkPad (p a d : R) : pad_t := mkPadDict (Some p) (Some a) (Some d).

(** The literal [{}]. *)
Definition empty_pad : pad_t := mkPadDict None None None.

(** [pad.get("pleasure", 0.0)], and likewise for the other two keys. *)
Definition pad_pleasure (p : pad_t) : R := default 0 (pad_pleasure_key p).
Definition pad_arousal (p : pad_t) : R := default 0 (pad_arousal_key p).
Definition pad_dominance (p : pad_t) : R := default 0 (pad_dominance_key p).

(** An episodic-memory dict: [None] stands for an absent key.
    [user_info] is given by its keys. *)
Record memory := mkMemory {
  vector : option (list R);
  pad : option pad_t;
  timestamp : option R;
  user_info : option (list string)
}.

(** The instance attributes of a [FileHippocampus]. *)
Record file_hippocampus := mkHippocampus {
  memories : list (string * memory);
  next_id : Z
}.

(** A fresh instance whose storage file does not exist. *)
Definition empty_store : file_hippocampus := mkHippocampus [] 0.

Definition set_pad (m : memory) (p : pad_t) : memory :=
  mkMemory (vector m) (Some p) (timestamp m) (user_info m).
Definition set_timestamp (m : memory) (t : R) : memory :=
  mkMemory (vector m) (pad m) (Some t) (user_info m).

(** [store_memory(episodic_memory)] at wall-clock time [now]; the new
    instance state and the outcome.  [_save_to_file] catches its own
    errors and does not change the instance, so it is left out. *)
Definition store_memory (h : file_hippocampus) (episodic_memory : memory)
    (now : R) : file_hippocampus * py_result string :=
  let memory_id := pretty (next_id h) in
  let h1 := mkHippocampus (memories h) (next_id h + 1)%Z in
  match vector episodic_memory with
  | None => (h1, Raise "ValueError")
  | Some _ =>
      let m1 := match pad episodic_memory with
                | None => set_pad episodic_memory (mkPad 0 0 0)
                | Some _ => episodic_memory
                end in
      let m2 := match timestamp m1 with
                | None => set_timestamp m1 now
                | Some _ => m1
                end in
      (mkHippocampus (dict_set memory_id m2 (memories h1)) (next_id h1),
       Return memory_id)
  end.

(** [np.dot] on two 1-D arrays: a [ValueError] when the lengths differ. *)
Fixpoint np_dot (a b : list R) : option R :=
  match a, b with
  | [], [] => Some 0
  | x :: a', y :: b' => option_map (fun s => x * y + s) (np_dot a' b')
  | _, _ => None
  end.

Definition sum_sq (a : list R) : R := fold_right (fun x s => x * x + s) 0 a.

(** [np.linalg.norm] *)
Definition np_norm (a : list R) : R := sqrt (sum_sq a).

(** [np.dot(q, v) / (np.linalg.norm(q) * np.linalg.norm(v))] *)
Definition cosine_similarity (q v : list R) : option pyfloat :=
  option_map (fun d => np_div d (np_norm q * np_norm v)) (np_dot q v).

(** The importance score of a memory at time [current_time]. *)
Definition importance_score (current_time : R) (m : memory) : R :=
  let time_diff := current_time - default current_time (timestamp m) in
  let time_decay := exp (- ln 2 * time_diff / (24 * 3600)) in
  let p := default empty_pad (pad m) in
  let emotional_intensity :=
    (Rabs (pad_pleasure p) + Rabs (pad_arousal p) + Rabs (pad_dominance p))
    / 3 in
  let user_bonus :=
    match user_info m with
    | Some keys => if decide ("name" ∈ keys) then 0.3 else 0
    | None => 0
    end in
  time_decay * 0.4 + emotional_intensity * 0.3 + user_bonus.

(** The [total_score] of one memory, or the exception raised on it. *)
Definition total_score (q : list R) (current_time : R) (m : memory)
    : py_result pyfloat :=
  match vector m with
  | None => Raise "KeyError"
  | Some v =>
      match cosine_similarity q v with
      | None => Raise "ValueError"
      | Some similarity =>
          Return (fadd_fin (fmul_pos similarity 0.7)
                           (importance_score current_time m * 0.3))
      end
  end.

Fixpoint score_all (q : list R) (current_time : R)
    (ms : list (string * memory)) : py_result (list (pyfloat * memory)) :=
  match ms with
  | [] => Return []
  | (_, m) :: ms' =>
      match total_score q current_time m with
      | Raise e => Raise e
      | Return s =>
          match score_all q current_time ms' with
          | Raise e => Raise e
          | Return l => Return ((s, m) :: l)
          end
      end
  end.

(** [retrieve_memories(query_vector, limit)] at wall-clock time
    [current_time]. *)
Definition retrieve_memories (h : file_hippocampus) (query_vector : list R)
    (limit : Z) (current_time : R) : py_result (list memory) :=
  match memories h with
  | [] => Return []
  | ms =>
      match score_all query_vector current_time ms with
      | Raise e => Raise e
      | Return scored_memories =>
          Return (map snd (py_slice_prefix limit
                    (py_sort_reverse fst scored_memories)))
      end
  end.

End Hippocampus.

(** ** src/limbic_flow/middleware/pathology *)
Module Pathology.
Import Hippocampus.

(** The [emotional_state] dict built by [_build_emotional_state]. *)
Record emotional_state := mkEmotional {
  es_pleasure : R;
  es_arousal : R;
  es_dominance : R;
  es_dopamine : R;
  es_cortisol : R;
  es_timestamp : R
}.

(** [np.random.random()]: the [n]-th draw of the generator is [rng n];
    a computation that draws returns the index of the next draw. *)
Definition rng_t := nat -> R.

(** *** [DepressionPathology] (pathologies.py) *)

Definition depression_should_apply (es : emotional_state) : bool :=
  if Rlt_dec 0.4 (es_cortisol es) then true
  else if Rlt_dec (es_pleasure es) (-0.2) then true else false.

Definition _calculate_dynamic_severity (base_severity : R)
    (es : emotional_state) : R :=
  let cortisol_boost := Rmax 0 ((es_cortisol es - 0.4) * 1) in
  Rmin 1 (base_severity + cortisol_boost).

(** [mem_copy.get("pad", {}).get("pleasure", 0.0)] *)
Definition memory_pleasure (m : memory) : R :=
  pad_pleasure (default empty_pad (pad m)).

(** [if "pad" in mem_copy: mem_copy["pad"]["pleasure"] *= factor]: a
    [KeyError] when the pad has no ["pleasure"] key. *)
Definition scale_pleasure (factor : R) (m : memory) : py_result memory :=
  match pad m with
  | Some p =>
      match pad_pleasure_key p with
      | Some x => Return (set_pad m (mkPadDict (Some (x * factor))
                                       (pad_arousal_key p) (pad_dominance_key p)))
      | None => Raise "KeyError"
      end
  | None => Return m
  end.

(** The loop of [DepressionPathology.distort_memories] with the severity
    already computed; the outcome and the index of the next draw. *)
Fixpoint depression_loop (severity : R) (rng : rng_t) (n : nat)
    (memories : list memory) : py_result (list memory) * nat :=
  match memories with
  | [] => (Return [], n)
  | memory :: rest =>
      let keep n1 :=
        match scale_pleasure (1 - 0.8 * severity) memory with
        | Raise e => (Raise e, n1)
        | Return mem_copy =>
            let '(out, n') := depression_loop severity rng n1 rest in
            (match out with
             | Return l => Return (mem_copy :: l)
             | Raise e => Raise e
             end, n')
        end in
      if Rlt_dec 0.2 (memory_pleasure memory) then
        if Rlt_dec (rng n) (0.8 * severity) then
          depression_loop severity rng (S n) rest
        else keep (S n)
      else keep n
  end.

Definition depression_distort_memories (base_severity : R)
    (memories : list memory) (es : emotional_state) (rng : rng_t) (n : nat)
    : py_result (list memory) * nat :=
  match memories with
  | [] => (Return memories, n)
  | _ => depression_loop (_calculate_dynamic_severity base_severity es)
           rng n memories
  end.

(** *** The policy interface ([PathologyBase] and the duck-typed policies
    of [BasePathologyMiddleware]).  Every method may raise. *)
Record policy := mkPolicy {
  name : string;
  should_apply : emotional_state -> py_result bool;
  distort_query : list R -> emotional_state -> py_result (list R);
  distort_memories : list memory -> emotional_state -> py_result (list memory)
}.

(** *** [BasePathologyMiddleware] (__init__.py), the chain the pipeline
    uses: no exception handler, a raising policy aborts the chain. *)
Fixpoint base_distort_memories (pathologies : list policy)
    (distorted_memories : list memory) (es : emotional_state)
    : py_result (list memory) :=
  match pathologies with
  | [] => Return distorted_memories
  | pathology :: rest =>
      match should_apply pathology es with
      | Raise e => Raise e
      | Return false => base_distort_memories rest distorted_memories es
      | Return true =>
          match distort_memories pathology distorted_memories es with
          | Raise e => Raise e
          | Return ms => base_distort_memories rest ms es
          end
      end
  end.

Fixpoint base_distort_query (pathologies : list policy)
    (distorted_vector : list R) (es : emotional_state) : py_result (list R) :=
  match pathologies with
  | [] => Return distorted_vector
  | pathology :: rest =>
      match should_apply pathology es with
      | Raise e => Raise e
      | Return false => base_distort_query rest distorted_vector es
      | Return true =>
          match distort_query pathology distorted_vector es with
          | Raise e => Raise e
          | Return v => base_distort_query rest v es
          end
      end
  end.

(** *** [PathologyMiddlewareManager] (base.py): the fields of the
    [CognitiveState] it reads and writes. *)
Record chain_state := mkChainState {
  cs_memories : list memory;
  cs_distorted_memories : list memory;
  cs_query_vector : option (list R);
  cs_emotional : emotional_state
}.

(** [PathologyBase.apply]: the state it leaves behind, or the exception
    it raises together with the state as mutated up to that point. *)
Definition apply (pathology : policy) (state : chain_state)
    : chain_state * option string :=
  let es := cs_emotional state in
  match should_apply pathology es with
  | Raise e => (state, Some e)
  | Return false => (state, None)
  | Return true =>
      let state1 :=
        match cs_distorted_memories state, cs_memories state with
        | [], _ :: _ => mkChainState (cs_memories state) (cs_memories state)
                          (cs_query_vector state) es
        | _, _ => state
        end in
      match cs_distorted_memories state1 with
      | [] => (state1, None)
      | dm =>
          match distort_memories pathology dm es with
          | Raise e => (state1, Some e)
          | Return ms => (mkChainState (cs_memories state1) ms
                            (cs_query_vector state1) es, None)
          end
      end
  end.

(** The loop of [PathologyMiddlewareManager.process]: an exception of
    one policy is printed and the loop continues. *)
Fixpoint manager_loop (pathologies : list policy) (state : chain_state)
    : chain_state :=
  match pathologies with
  | [] => state
  | pathology :: rest => manager_loop rest (fst (apply pathology state))
  end.

Definition manager_process (pathologies : list policy) (state : chain_state)
    : chain_state :=
  let state1 :=
    match cs_distorted_memories state, cs_memories state with
    | [], _ :: _ => mkChainState (cs_memories state) (cs_memories state)
                      (cs_query_vector state) (cs_emotional state)
    | _, _ => state
    end in
  manager_loop pathologies state1.

(** [PathologyMiddlewareManager.distort_query]. *)
Fixpoint manager_query_loop (pathologies : list policy) (v : list R)
    (es : emotional_state) : list R :=
  match pathologies with
  | [] => v
  | pathology :: rest =>
      let v' := match should_apply pathology es with
                | Return true =>
                    match distort_query pathology v es with
                    | Return v' => v'
                    | Raise _ => v
                    end
                | _ => v
                end in
      manager_query_loop rest v' es
  end.

End Pathology.

(** ** src/limbic_flow/core/articulation/motor_cortex.py *)
Module MotorCortex.

(** A Python [str] as its sequence of code points. *)
Definition text := list Z.

(** The characters [str.strip()] removes ([str.isspace]). *)
Definition is_space (c : Z) : bool :=
  (((9 <=? c) && (c <=? 13)) || ((28 <=? c) && (c <=? 32)) ||
   (c =? 133) || (c =? 160) || (c =? 5760) ||
   ((8192 <=? c) && (c <=? 8202)) || (c =? 8232) || (c =? 8233) ||
   (c =? 8239) || (c =? 8287) || (c =? 12288))%Z.

Fixpoint lstrip (s : text) : text :=
  match s with
  | c :: s' => if is_space c then lstrip s' else s
  | [] => []
  end.

(** [s.strip()] *)
Definition strip (s : text) : text := rev (lstrip (rev (lstrip s))).

(** The code points of [。], [！] and [？]. *)
Definition ideographic_full_stop : Z := 12290.
Definition fullwidth_exclamation : Z := 65281.
Definition fullwidth_question : Z := 65311.
Definition sentence_marks : text :=
  [ideographic_full_stop; fullwidth_exclamation; fullwidth_question].

Definition is_sentence_mark (c : Z) : bool :=
  ((c =? ideographic_full_stop) || (c =? fullwidth_exclamation) ||
   (c =? fullwidth_question))%Z.

(** [re.split(r'([。！？])', text)]: the pieces between the marks,
    interleaved with the marks themselves (the capture group). *)
Fixpoint re_split_go (s : text) (cur_rev : text) : list text :=
  match s with
  | [] => [rev cur_rev]
  | c :: s' =>
      if is_sentence_mark c then rev cur_rev :: [c] :: re_split_go s' []
      else re_split_go s' (c :: cur_rev)
  end.

Definition re_split (s : text) : list text := re_split_go s [].

Fixpoint is_prefix (p s : text) : bool :=
  match p, s with
  | [], _ => true
  | a :: p', b :: s' => Z.eqb a b && is_prefix p' s'
  | _ :: _, [] => false
  end.

(** Python's [needle in haystack] on strings. *)
Fixpoint py_str_in (needle haystack : text) : bool :=
  is_prefix needle haystack ||
  match haystack with
  | [] => false
  | _ :: h' => py_str_in needle h'
  end.

(** Constructor arguments of a [MotorCortex] that [articulate] reads. *)
Record motor_cortex := mkMotorCortex {
  base_wpm : R;
  min_segment_length : R;
  hesitation_base : R
}.

Definition default_motor_cortex : motor_cortex := mkMotorCortex 60 10 0.5.

(** The [pad_state] dict passed by [process]. *)
Record pad_state := mkPadState {
  ps_pleasure : R;
  ps_arousal : R;
  ps_dominance : R;
  ps_dopamine : R;
  ps_cortisol : R
}.

Definition segment_multiplier (ps : pad_state) : R :=
  let m := if Rlt_dec 0.5 (ps_arousal ps) then
             if Rlt_dec (ps_dominance ps) (-0.3) then 0.8 else 1
           else 1 in
  if Rlt_dec 0.8 (ps_dopamine ps) then 0.5 else m.

(** The [for i, segment in enumerate(segments)] loop of [_segment_text]:
    the completed bubbles (in order) and the final buffer. *)
Fixpoint segment_loop (mc : motor_cortex) (mult : R) (segments : list text)
    (bubbles : list text) (current_buffer : text) : list text * text :=
  match segments with
  | [] => (bubbles, current_buffer)
  | segment :: rest =>
      let buf := current_buffer ++ segment in
      if py_str_in segment sentence_marks then
        if Rle_dec (min_segment_length mc * mult) (INR (length buf)) then
          segment_loop mc mult rest (bubbles ++ [buf]) []
        else segment_loop mc mult rest bubbles buf
      else segment_loop mc mult rest bubbles buf
  end.

Definition _segment_text (mc : motor_cortex) (t : text) (ps : pad_state)
    : list text :=
  let mult := segment_multiplier ps in
  let segments := List.filter (fun s => negb (bool_decide (strip s = []))) (re_split t) in
  let '(bubbles, current_buffer) := segment_loop mc mult segments [] [] in
  let bubbles1 :=
    if bool_decide (strip current_buffer = []) then bubbles
    else bubbles ++ [current_buffer] in
  match bubbles1 with
  | [] => if bool_decide (strip t = []) then [] else [strip t]
  | _ => bubbles1
  end.

(** [random.random()] draws, as in [Pathology]. *)
Definition rng_t := nat -> R.

(** [random.uniform(a, b)] is [a + (b - a) * random.random()]. *)
Definition uniform (a b : R) (rng : rng_t) (n : nat) : R :=
  a + (b - a) * rng n.

(** [_calculate_typing_delay]: the delay drawn with the [n]-th draw. *)
Definition _calculate_typing_delay (mc : motor_cortex) (text_length : nat)
    (ps : pad_state) (rng : rng_t) (n : nat) : R :=
  let speed_modifier0 := 1 + ps_arousal ps * 0.5 in
  let speed_modifier1 :=
    if Rlt_dec 0.8 (ps_dopamine ps) then speed_modifier0 * 1.3
    else speed_modifier0 in
  let speed_modifier := py_clamp 0.5 2 speed_modifier1 in
  let effective_wpm := base_wpm mc * speed_modifier in
  let chars_per_second := effective_wpm * 5 / 60 in
  let base_delay := INR text_length / chars_per_second in
  let noise_factor := uniform 0.9 1.1 rng n in
  base_delay * noise_factor.

Definition _calculate_hesitation (mc : motor_cortex) (dominance arousal : R)
    : R :=
  let dominance_factor := 1 - dominance * 0.5 in
  let arousal_factor := 1 - arousal * 0.3 in
  let hesitation := hesitation_base mc * dominance_factor * arousal_factor in
  py_clamp 0.1 3 hesitation.

(** An [ActionEvent] (metadata left out). *)
Inductive action :=
| Typing (duration : R)
| Wait (duration : R)
| Message (content : text).

(** The [for i, segment in enumerate(segments)] loop of [articulate],
    from index [i] of a list of [total] segments; returns the actions and
    the index of the next random draw. *)
Fixpoint articulate_loop (mc : motor_cortex) (ps : pad_state)
    (rng : rng_t) (total i : nat) (segments : list text) (n : nat)
    : list action * nat :=
  match segments with
  | [] => ([], n)
  | segment :: rest =>
      let typing_duration :=
        _calculate_typing_delay mc (length segment) ps rng n in
      let hesitation_duration :=
        _calculate_hesitation mc (ps_dominance ps) (ps_arousal ps) in
      let '(stress, n1) :=
        if Rlt_dec 0.7 (ps_cortisol ps)
        then ([Wait (uniform 1 3 rng (S n))], S (S n))
        else ([], S n) in
      let pause := if Nat.ltb i (total - 1) then [Wait hesitation_duration]
                   else [] in
      let '(acts, n2) := articulate_loop mc ps rng total (S i) rest n1 in
      ([Typing typing_duration] ++ stress ++ [Message segment] ++ pause
         ++ acts, n2)
  end.

Definition articulate (mc : motor_cortex) (full_response_text : text)
    (ps : pad_state) (rng : rng_t) (n : nat) : list action * nat :=
  let segments := _segment_text mc full_response_text ps in
  articulate_loop mc ps rng (length segments) 0 segments n.

End MotorCortex.

(** ** src/limbic_flow/core/amygdala/__init__.py *)
Module Amygdala.

(** A row of [state_log] as returned by [get_state_history]. *)
Record snapshot := mkSnapshot {
  sn_timestamp : R;
  sn_pleasure : R;
  sn_arousal : R;
  sn_dominance : R;
  sn_dopamine : R;
  sn_cortisol : R
}.

(** A [CognitiveState] instance (core/types.py): the dataclass fields
    [process] may touch, and [extra_attrs] for the attributes set on the
    instance beyond its fields, in the order they were first set. *)
Record cog_state := mkCogState {
  user_input : string;
  pad_vector : list (string * R);
  neurotransmitters : list (string * R);
  environmental_pressure : R;
  timestamp : R;
  extra_attrs : list (string * R)
}.

(** [CognitiveState(user_input=..., timestamp=...)] with the other fields
    at their defaults: no attribute beyond the fields. *)
Definition new_cognitive_state (user_input : string) (timestamp : R)
    : cog_state :=
  mkCogState user_input
    [("pleasure", 0); ("arousal", 0); ("dominance", 0)]%string
    [("dopamine", 0.5); ("cortisol", 0.3)]%string 0 timestamp [].

(** [state.<name>] for a name that is not a dataclass field:
    [AttributeError] unless the attribute was set on the instance. *)
Definition get_attr (state : cog_state) (name : string) : py_result R :=
  match dict_get name (extra_attrs state) with
  | Some v => Return v
  | None => Raise "AttributeError"
  end.

(** [state.<name> = v] for a name that is not a dataclass field. *)
Definition set_attr (state : cog_state) (name : string) (v : R) : cog_state :=
  mkCogState (user_input state) (pad_vector state) (neurotransmitters state)
    (environmental_pressure state) (timestamp state)
    (dict_set name v (extra_attrs state)).

(** [get_state_history(limit=limit)]: [log] holds the rows ordered by
    descending timestamp, so the query returns its first [limit] rows. *)
Definition get_state_history (log : list snapshot) (limit : nat)
    : list snapshot :=
  firstn limit log.

(** The contribution of one history row to [cumulative_stress]. *)
Definition stress_of (record : snapshot) : R :=
  if Rlt_dec 0.2 (sn_arousal record) then
    if Rlt_dec (sn_pleasure record) (-0.2) then 0.1 else 0
  else 0.

Definition cumulative_stress (history : list snapshot) : R :=
  fold_left (fun acc record => acc + stress_of record) history 0.

(** [process(state)] on a database whose ordered log is [log]: the state
    after the call (the instance is mutated in place) and either the row
    passed to [log_state] or the exception raised.  The attributes are
    read in the order of the source; [and] reads [state.dominance] only
    when [state.arousal > 0.3]. *)
Definition process (log : list snapshot) (state : cog_state)
    : cog_state * py_result snapshot :=
  let history := get_state_history log 5 in
  let cs := cumulative_stress history in
  match get_attr state "arousal" with
  | Raise e => (state, Raise e)
  | Return arousal =>
  match (if Rlt_dec 0.3 arousal then
           match get_attr state "dominance" with
           | Raise e => Raise e
           | Return dominance =>
               Return (if Rlt_dec dominance (-0.2) then 0.2 else 0)
           end
         else Return 0) with
  | Raise e => (state, Raise e)
  | Return current_stress =>
  let state1 := set_attr state "cortisol"
                  (Rmin 1 (Rmax 0 (0.3 + cs + current_stress
                                   + environmental_pressure state))) in
  match get_attr state1 "pleasure" with
  | Raise e => (state1, Raise e)
  | Return pleasure =>
  let boost1 := if Rlt_dec 0.3 pleasure then 0.2 else 0 in
  match get_attr state1 "dominance" with
  | Raise e => (state1, Raise e)
  | Return dominance =>
  let dopamine_boost :=
    if Rlt_dec 0.3 dominance then boost1 + 0.1 else boost1 in
  let state2 := set_attr state1 "dopamine"
                  (Rmin 1 (Rmax 0 (0.5 + dopamine_boost))) in
  (state2,
   match get_attr state2 "pleasure", get_attr state2 "arousal",
         get_attr state2 "dominance", get_attr state2 "dopamine",
         get_attr state2 "cortisol" with
   | Return p, Return a, Return d, Return dp, Return c =>
       Return (mkSnapshot (timestamp state2) p a d dp c)
   | Raise e, _, _, _, _
   | Return _, Raise e, _, _, _
   | Return _, Return _, Raise e, _, _
   | Return _, Return _, Return _, Raise e, _
   | Return _, Return _, Return _, Return _, Raise e => Raise e
   end)
  end end end end.

End Amygdala.

(** ** Reference definitions that follow the spec's wording *)
Module DepressionSpec.
Import Hippocampus Pathology.

Definition high_pleasure (m : memory) : bool :=
  if Rlt_dec 0.2 (memory_pleasure m) then true else false.

(** A memory whose ["pad"] has no ["pleasure"] key. *)
Definition pad_lacks_pleasure (m : memory) : bool :=
  match pad m with
  | Some p => match pad_pleasure_key p with None => true | Some _ => false end
  | None => false
  end.

(** "Its pleasure is multiplied by [factor]" for a memory that carries a
    ["pad"]; other memories are unchanged. *)
Definition scaled (factor : R) (m : memory) : memory :=
  match pad m with
  | Some p => set_pad m (mkPadDict (Some (pad_pleasure p * factor))
                          (pad_arousal_key p) (pad_dominance_key p))
  | None => m
  end.

(** "For each memory with pleasure > 0.2, drop it with probability
    0.8 x severity": the memory is dropped when its uniform draw falls
    below [0.8 * severity]; draws are taken in order, one per such
    memory.  The result is the list of memories kept. *)
Fixpoint kept_memories (severity : R) (rng : rng_t) (n : nat)
    (ms : list memory) : list memory :=
  match ms with
  | [] => []
  | m :: ms' =>
      if high_pleasure m then
        if Rlt_dec (rng n) (0.8 * severity) then
          kept_memories severity rng (S n) ms'
        else m :: kept_memories severity rng (S n) ms'
      else m :: kept_memories severity rng n ms'
  end.

End DepressionSpec.

Module ArticulationSpec.
Import MotorCortex.

(** The actions for the segment at position [i] of [total] segments,
    whose typing noise is the [d]-th draw: "typing -> optional stress
    pause -> message -> (if not the last segment) wait". *)
Definition segment_block (mc : motor_cortex) (ps : pad_state) (rng : rng_t)
    (total i d : nat) (seg : text) : list action :=
  [Typing (_calculate_typing_delay mc (length seg) ps rng d)] ++
  (if Rlt_dec 0.7 (ps_cortisol ps) then [Wait (uniform 1 3 rng (S d))]
   else []) ++
  [Message seg] ++
  (if Nat.ltb (S i) total
   then [Wait (_calculate_hesitation mc (ps_dominance ps) (ps_arousal ps))]
   else []).

(** Random draws taken per segment. *)
Definition draws_per_segment (ps : pad_state) : nat :=
  if Rlt_dec 0.7 (ps_cortisol ps) then 2 else 1.

(** The emission order of the spec over a list of segments, the first
    segment's noise being the [n]-th draw. *)
Definition expected_stream (mc : motor_cortex) (ps : pad_state)
    (rng : rng_t) (n : nat) (segs : list text) : list action :=
  concat (imap (fun i seg =>
    segment_block mc ps rng (length segs) i
      (n + draws_per_segment ps * i) seg) segs).

End ArticulationSpec.

Module RetrievalSpec.
Import Hippocampus.

(** Dot product of two vectors of the same length. *)
Fixpoint rdot (a b : list R) : R :=
  match a, b with
  | x :: a', y :: b' => x * y + rdot a' b'
  | _, _ => 0
  end.

(** [importance = 0.4 x 2^(-age/24h) + 0.3 x meanAbsolute(affect)
    + 0.3 x (1 if the user info has a "name" key else 0)]; a missing
    timestamp counts as age 0 and a missing affect snapshot as zeros. *)
Definition spec_importance (now : R) (m : memory) : R :=
  let age := now - default now (timestamp m) in
  let p := default (mkPad 0 0 0) (pad m) in
  0.4 * Rpower 2 (- age / 86400)
  + 0.3 * ((Rabs (pad_pleasure p) + Rabs (pad_arousal p)
            + Rabs (pad_dominance p)) / 3)
  + 0.3 * (match user_info m with
           | Some keys => if decide ("name" ∈ keys) then 1 else 0
           | None => 0
           end).

(** [score = 0.7 x cosineSimilarity(q, vector) + 0.3 x importance]. *)
Definition spec_score (q : list R) (now : R) (m : memory) : R :=
  let v := default [] (vector m) in
  0.7 * (rdot q v / (np_norm q * np_norm v)) + 0.3 * spec_importance now m.

Definition score_is (r : R) (e : R * memory) : bool :=
  if Req_EM_T (fst e) r then true else false.

Definition nonzero (v : list R) : Prop := Exists (fun x => x <> 0) v.
Definition all_zero (v : list R) : Prop := Forall (fun x => x = 0) v.

(** "Ranked descending by score, ties broken by insertion order": an
    insertion sort that puts each record before the first record of the
    rest's ranking whose score is not above its own. *)
Fixpoint insert_desc (x : R * memory) (l : list (R * memory))
    : list (R * memory) :=
  match l with
  | [] => [x]
  | y :: l' => if Rlt_dec (fst x) (fst y) then y :: insert_desc x l'
               else x :: l
  end.

Definition rank_desc (l : list (R * memory)) : list (R * memory) :=
  fold_right insert_desc [] l.

End RetrievalSpec.

(** ** [MockHippocampus.retrieve_memories] (hippocampus/__init__.py):
    ranking by cosine similarity alone. *)
Module MockHippocampus.
Import Hippocampus.

Fixpoint similarities (q : list R) (ms : list (string * memory))
    : py_result (list (pyfloat * memory)) :=
  match ms with
  | [] => Return []
  | (_, m) :: ms' =>
      match vector m with
      | None => Raise "KeyError"
      | Some v =>
          match cosine_similarity q v with
          | None => Raise "ValueError"
          | Some similarity =>
              match similarities q ms' with
              | Raise e => Raise e
              | Return l => Return ((similarity, m) :: l)
              end
          end
      end
  end.

(** [retrieve_memories(query_vector, limit)] on the instance's
    [self.memories]. *)
Definition retrieve_memories (memories : list (string * memory))
    (query_vector : list R) (limit : Z) : py_result (list memory) :=
  match memories with
  | [] => Return []
  | ms =>
      match similarities query_vector ms with
      | Raise e => Raise e
      | Return sims =>
          Return (map snd (py_slice_prefix limit (py_sort_reverse fst sims)))
      end
  end.

End MockHippocampus.

(** ** [AlzheimerPathology.distort_memories] (pathology/__init__.py, the
    policy the pipeline registers) *)
Module Alzheimer.
Import Hippocampus Pathology.

Fixpoint alzheimer_loop (severity current_time : R) (rng : rng_t) (n : nat)
    (memories : list memory) : list memory * nat :=
  match memories with
  | [] => ([], n)
  | memory :: rest =>
      let memory_time := default 0 (timestamp memory) in
      let time_diff := current_time - memory_time in
      if Rlt_dec time_diff 86400 then
        if Rlt_dec (rng n) (0.8 * severity) then
          alzheimer_loop severity current_time rng (S n) rest
        else
          let '(out, n') := alzheimer_loop severity current_time rng (S n) rest in
          (memory :: out, n')
      else if Rlt_dec time_diff 604800 then
        if Rlt_dec (rng n) (0.5 * severity) then
          alzheimer_loop severity current_time rng (S n) rest
        else
          let '(out, n') := alzheimer_loop severity current_time rng (S n) rest in
          (memory :: out, n')
      else
        let '(out, n') := alzheimer_loop severity current_time rng n rest in
        (memory :: out, n')
  end.

(** [distort_memories(memories, emotional_state)]; the [emotional_state]
    built by the pipeline always carries ["timestamp"]. *)
Definition distort_memories (severity : R) (memories : list memory)
    (es : emotional_state) (rng : rng_t) (n : nat) : list memory * nat :=
  alzheimer_loop severity (es_timestamp es) rng n memories.

(** A memory the loop never draws for: stored a week or more before
    [current_time]. *)
Definition week_old (current_time : R) (m : memory) : bool :=
  if Rlt_dec (current_time - default 0 (timestamp m)) 604800 then false
  else true.

End Alzheimer.

(** ** src/limbic_flow/core/articulation/action_event.py *)
Module ActionEvent.

Inductive ActionType := TYPING | MESSAGE | WAIT | THINKING.

(** [ActionType.value] *)
Definition value (t : ActionType) : string :=
  match t with
  | TYPING => "typing"
  | MESSAGE => "message"
  | WAIT => "wait"
  | THINKING => "thinking"
  end.

(** [ActionType(v)]: lookup by value, [ValueError] for any other value. *)
Definition of_value (v : string) : py_result ActionType :=
  if String.eqb v "typing" then Return TYPING
  else if String.eqb v "message" then Return MESSAGE
  else if String.eqb v "wait" then Return WAIT
  else if String.eqb v "thinking" then Return THINKING
  else Raise "ValueError".

Section Event.
Context {Meta : Type} (empty_meta : Meta).

(** The dataclass; [Meta] is the type of its [metadata] dict and
    [empty_meta] is [{}]. *)
Record action_event := mkActionEvent {
  action_type : ActionType;
  content : string;
  duration : R;
  metadata : Meta
}.

(** A dict with the keys [to_dict] writes, [None] for an absent key;
    values have the types the dataclass fields declare. *)
Record event_dict := mkEventDict {
  d_action : option string;
  d_content : option string;
  d_duration : option R;
  d_metadata : option Meta
}.

Definition to_dict (e : action_event) : event_dict :=
  mkEventDict (Some (value (action_type e))) (Some (content e))
              (Some (duration e)) (Some (metadata e)).

Definition from_dict (data : event_dict) : py_result action_event :=
  match d_action data with
  | None => Raise "KeyError"
  | Some a =>
      match of_value a with
      | Raise e => Raise e
      | Return action_type =>
          Return (mkActionEvent action_type (default "" (d_content data))
                    (default 0 (d_duration data))
                    (default empty_meta (d_metadata data)))
      end
  end.

End Event.

End ActionEvent.

(** ** [LimbicFlowPipeline._enhance_memories] (pipeline/__init__.py) *)
Module Pipeline.
Import Hippocampus.

(** ["user_info" in memory and memory["user_info"]]: present and
    non-empty. *)
Definition has_user_info (m : memory) : bool :=
  match user_info m with
  | Some (_ :: _) => true
  | _ => false
  end.

Definition _enhance_memories (memories : list memory) : list memory :=
  match memories with
  | [] => []
  | _ =>
      let user_info_memories := List.filter has_user_info memories in
      let regular_memories :=
        List.filter (fun m => negb (has_user_info m)) memories in
      firstn 3 user_info_memories ++ firstn 2 regular_memories
  end.

End Pipeline.

(** ** Predicates used to state properties of [_segment_text] *)
Module SegmentSpec.
Import MotorCortex.

(** The last character of [s] is one of [。！？]. *)
Definition ends_with_mark (s : text) : bool :=
  match rev s with
  | c :: _ => is_sentence_mark c
  | [] => false
  end.

End SegmentSpec.

(** * Proofs *)

Lemma py_clamp_range lo hi x : lo <= hi -> lo <= py_clamp lo hi x <= hi.
Proof.
  intros H. unfold py_clamp, Rmax, Rmin.
  destruct (Rle_dec hi x), (Rle_dec lo _); lra.
Qed.

Lemma py_clamp_id lo hi x : lo <= x <= hi -> py_clamp lo hi x = x.
Proof.
  intros H. unfold py_clamp, Rmax, Rmin.
  destruct (Rle_dec hi x), (Rle_dec lo _); lra.
Qed.


Module EmotionEngineFacts.
Import EmotionEngine.

Lemma ln2_pos : 0 < ln 2.
Proof. pose proof ln_lt_2. lra. Qed.

Lemma decay_factor_Rpower dt h :
  h <> 0 -> decay_factor dt h = Rpower 2 (- dt / h).
Proof.
  intros Hh. unfold decay_factor, Rpower. f_equal. field. exact Hh.
Qed.

Lemma decay_factor_0 h : decay_factor 0 h = 1.
Proof.
  unfold decay_factor. replace (- ln 2 * 0 / h) with 0 by (unfold Rdiv; ring).
  apply exp_0.
Qed.

Lemma decay_factor_bounds dt h :
  0 <= dt -> 0 < h -> 0 < decay_factor dt h <= 1.
Proof.
  intros Hdt Hh. unfold decay_factor. split; [apply exp_pos |].
  pose proof EmotionEngineFacts.ln2_pos as Hl.
  assert (Hx : - ln 2 * dt / h <= 0).
  { pose proof (Rinv_0_lt_compat h Hh).
    assert (0 <= ln 2 * dt * / h)
      by (apply Rmult_le_pos; [apply Rmult_le_pos |]; lra).
    replace (- ln 2 * dt / h) with (- (ln 2 * dt * / h))
      by (unfold Rdiv; ring).
    lra. }
  destruct (Rle_lt_or_eq_dec _ _ Hx) as [Hlt | Heq].
  - left. rewrite <- exp_0. apply exp_increasing. exact Hlt.
  - rewrite Heq, exp_0. lra.
Qed.

Lemma scaled_in_range x f : -1 <= x <= 1 -> 0 < f <= 1 -> -1 <= x * f <= 1.
Proof. intros Hx Hf. split; nra. Qed.

Lemma DBL_MAX_gt_1 : 1 < DBL_MAX.
Proof.
  unfold DBL_MAX.
  assert (H52 : 1 <= 2 ^ 52) by (apply pow_R1_Rle; lra).
  assert (H1023 : 1 < 2 ^ 1023) by (apply Rlt_pow_R1; [lra | lia]).
  assert (Hi : / 2 ^ 52 <= / 1) by (apply Rinv_le_contravar; lra).
  rewrite Rinv_1 in Hi.
  assert (Hp : 0 < / 2 ^ 52) by (apply Rinv_0_lt_compat; lra).
  revert H1023 Hi Hp. generalize (2 ^ 1023) (/ 2 ^ 52). intros b a Hb Ha Hp.
  nra.
Qed.

Lemma math_decay_ok dt h :
  decay_factor dt h <= DBL_MAX -> math_decay dt h = Return (decay_factor dt h).
Proof.
  intros H. unfold math_decay, math_exp.
  destruct (Rlt_dec DBL_MAX _) as [Hlt | _]; [| reflexivity].
  unfold decay_factor in H. lra.
Qed.

Lemma math_decay_raise dt h :
  DBL_MAX < decay_factor dt h -> math_decay dt h = Raise "OverflowError".
Proof.
  intros H. unfold math_decay, math_exp.
  destruct (Rlt_dec DBL_MAX _) as [_ | Hge]; [reflexivity |].
  unfold decay_factor in H. lra.
Qed.

Lemma exp_le_mono x y : x <= y -> exp x <= exp y.
Proof.
  intros H. destruct (Rle_lt_or_eq_dec _ _ H) as [Hlt | ->]; [| lra].
  left. apply exp_increasing, Hlt.
Qed.

(** Dopamine has the shortest half-life: its factor is the largest one
    when the clock goes backwards. *)
Lemma decay_factor_le_dopamine dt h :
  300 <= h -> decay_factor dt h <= Rmax 1 (decay_factor dt half_life_dopamine).
Proof.
  intros Hh. unfold half_life_dopamine.
  destruct (Rle_dec 0 dt) as [Hdt | Hdt].
  - apply Rle_trans with 1; [apply decay_factor_bounds; lra | apply Rmax_l].
  - apply Rle_trans with (decay_factor dt 300); [| apply Rmax_r].
    unfold decay_factor. apply exp_le_mono.
    pose proof ln2_pos as Hl.
    unfold Rdiv. apply Rmult_le_compat_l; [nra |].
    apply Rinv_le_contravar; lra.
Qed.

Lemma decay_ok_nonneg dt :
  0 <= dt -> decay_factor dt half_life_dopamine <= DBL_MAX.
Proof.
  intros Hdt. pose proof DBL_MAX_gt_1.
  pose proof (decay_factor_bounds dt 300 Hdt ltac:(lra)).
  unfold half_life_dopamine. lra.
Qed.

(** Without overflow of the dopamine factor, [_apply_half_life_decay]
    returns the decayed state. *)
Lemma apply_decay_ok e dt :
  decay_factor dt half_life_dopamine <= DBL_MAX ->
  _apply_half_life_decay e dt =
    Return (mkEngine (pleasure e * decay_factor dt half_life_pleasure)
              (arousal e * decay_factor dt half_life_arousal)
              (dominance e * decay_factor dt half_life_dominance)
              (0.5 + (dopamine e - 0.5) * decay_factor dt half_life_dopamine)
              (0.3 + (cortisol e - 0.3) * decay_factor dt half_life_cortisol)
              (last_update_time e)).
Proof.
  intros H. pose proof DBL_MAX_gt_1 as H1.
  assert (G : forall h, 300 <= h -> decay_factor dt h <= DBL_MAX).
  { intros h Hh. pose proof (decay_factor_le_dopamine dt h Hh) as Hd.
    unfold Rmax in Hd. destruct (Rle_dec 1 _); lra. }
  unfold _apply_half_life_decay.
  rewrite !math_decay_ok
    by (exact H || (apply G; unfold half_life_pleasure, half_life_arousal,
                      half_life_dominance, half_life_cortisol; lra)).
  reflexivity.
Qed.

(** When the dopamine factor overflows, [_apply_half_life_decay] raises
    [OverflowError]. *)
Lemma apply_decay_raise e dt :
  DBL_MAX < decay_factor dt half_life_dopamine ->
  _apply_half_life_decay e dt = Raise "OverflowError".
Proof.
  intros H. unfold _apply_half_life_decay.
  destruct (math_decay dt half_life_pleasure) as [f1 | x1] eqn:E1;
    [| unfold math_decay, math_exp in E1; destruct (Rlt_dec _ _); congruence].
  destruct (math_decay dt half_life_arousal) as [f2 | x2] eqn:E2;
    [| unfold math_decay, math_exp in E2; destruct (Rlt_dec _ _); congruence].
  destruct (math_decay dt half_life_dominance) as [f3 | x3] eqn:E3;
    [| unfold math_decay, math_exp in E3; destruct (Rlt_dec _ _); congruence].
  rewrite math_decay_raise by exact H. reflexivity.
Qed.

Lemma update_ok e t ip ia id :
  decay_factor (t - last_update_time e) half_life_dopamine <= DBL_MAX ->
  let dt := t - last_update_time e in
  let e5 := _clamp_values (_update_neurotransmitters
       (mkEngine (pleasure e * decay_factor dt half_life_pleasure + ip)
                 (arousal e * decay_factor dt half_life_arousal + ia)
                 (dominance e * decay_factor dt half_life_dominance + id)
                 (0.5 + (dopamine e - 0.5) * decay_factor dt half_life_dopamine)
                 (0.3 + (cortisol e - 0.3) * decay_factor dt half_life_cortisol)
                 t)) in
  update e t ip ia id = (e5, Return e5).
Proof.
  intros H dt e5. unfold update. cbv zeta.
  rewrite apply_decay_ok by exact H. reflexivity.
Qed.

Lemma update_in_range e t ip ia id st :
  snd (update e t ip ia id) = Return st -> in_range st.
Proof.
  unfold update. cbv zeta.
  destruct (_apply_half_life_decay _ _) as [e2 | x]; cbn [snd];
    [| discriminate].
  intros H; injection H as <-.
  unfold in_range, _clamp_values. simpl.
  refine (conj _ (conj _ (conj _ (conj _ _)))); apply py_clamp_range; lra.
Qed.

(** Claim C3: after every call of any sequence of [update] calls, the
    pleasure, arousal and dominance axes lie in [-1, 1] and dopamine and
    cortisol in [0, 1], whatever the deltas and elapsed times. *)
Theorem update_sequence_clamped (e : engine) (ss : list stimulus) :
  Forall in_range (run e ss).
Proof.
  revert e. induction ss as [| s ss IH]; intros e; simpl; [constructor |].
  destruct (update e (at_time s) (d_pleasure s) (d_arousal s)
              (d_dominance s)) as [e' r] eqn:E.
  destruct r as [st | x]; [| apply IH].
  constructor; [| apply IH].
  apply (update_in_range e (at_time s) (d_pleasure s) (d_arousal s)
           (d_dominance s)).
  rewrite E. reflexivity.
Qed.

(** Claim C1 (counterexample): from pleasure 0.5 and dopamine at its
    baseline 0.5, an update with zero stimulus and zero elapsed time
    leaves dopamine at 0.55, not at the decay value 0.5. *)
Lemma decay_claim_dopamine_counterexample :
  let e := mkEngine 0.5 0 0 0.5 0.3 0 in
  let e' := fst (update e 0 0 0 0) in
  dopamine e' = 0.55 /\
  dopamine e' <> 0.5 + (dopamine e - 0.5)
                         * Rpower 2 (- (0 - last_update_time e)
                                     / half_life_dopamine).
Proof.
  intros e e'. unfold e'.
  rewrite update_ok by (apply decay_ok_nonneg; unfold e; simpl; lra).
  unfold e. cbn [fst]. unfold _clamp_values, _update_neurotransmitters.
  simpl.
  replace (0 - 0) with 0 by ring. rewrite !decay_factor_0.
  rewrite (py_clamp_id 0 1) by lra.
  split; [lra |].
  replace (0.5 - 0.5) with 0 by ring. lra.
Qed.

(** Claim C1 (amended): with zero stimulus and elapsed time
    [dt = t - last >= 0] from a state whose PAD axes lie in [-1, 1], the
    call returns (no overflow) and each PAD axis becomes
    [previous * 2^(-dt/H)] (baseline 0); dopamine becomes
    [0.5 + (previous - 0.5) * 2^(-dt/300)] plus [0.1 *] the decayed
    pleasure, clamped to [0, 1]; cortisol becomes
    [0.3 + (previous - 0.3) * 2^(-dt/600)] plus [0.1 *] the absolute
    decayed arousal, clamped to [0, 1]. *)
Theorem update_zero_stimulus_decay (e : engine) (t : R) :
  -1 <= pleasure e <= 1 -> -1 <= arousal e <= 1 -> -1 <= dominance e <= 1 ->
  last_update_time e <= t ->
  let dt := t - last_update_time e in
  let e' := fst (update e t 0 0 0) in
  snd (update e t 0 0 0) = Return e' /\
  pleasure e' = pleasure e * Rpower 2 (- dt / half_life_pleasure) /\
  arousal e' = arousal e * Rpower 2 (- dt / half_life_arousal) /\
  dominance e' = dominance e * Rpower 2 (- dt / half_life_dominance) /\
  dopamine e' = py_clamp 0 1 (0.5 + (dopamine e - 0.5)
                  * Rpower 2 (- dt / half_life_dopamine) + 0.1 * pleasure e') /\
  cortisol e' = py_clamp 0 1 (0.3 + (cortisol e - 0.3)
                  * Rpower 2 (- dt / half_life_cortisol)
                  + 0.1 * Rabs (arousal e')) /\
  last_update_time e' = t.
Proof.
  intros Hp Ha Hd Ht dt e'.
  assert (Hdt : 0 <= dt) by (unfold dt; lra).
  unfold e'. rewrite update_ok by (apply decay_ok_nonneg; exact Hdt).
  cbn [fst snd]. split; [reflexivity |]. fold dt.
  unfold half_life_pleasure, half_life_arousal, half_life_dominance,
    half_life_dopamine, half_life_cortisol in *.
  pose proof (decay_factor_bounds dt 3600 Hdt ltac:(lra)) as Fp.
  pose proof (decay_factor_bounds dt 1800 Hdt ltac:(lra)) as Fa.
  pose proof (decay_factor_bounds dt 2700 Hdt ltac:(lra)) as Fd.
  rewrite <- !decay_factor_Rpower by lra.
  unfold _clamp_values, _update_neurotransmitters. simpl.
  rewrite !Rplus_0_r.
  rewrite !(py_clamp_id (-1) 1) by (apply scaled_in_range; assumption).
  repeat split; f_equal; ring.
Qed.

Lemma update_zero_stimulus_decay_witness :
  let e := mkEngine 0.5 (-0.25) 1 0.9 0.1 100 in
  -1 <= pleasure e <= 1 /\ -1 <= arousal e <= 1 /\ -1 <= dominance e <= 1 /\
  last_update_time e <= 700 /\
  pleasure (fst (update e 700 0 0 0))
    = pleasure e * Rpower 2 (- (700 - last_update_time e) / half_life_pleasure).
Proof.
  simpl. repeat split; try lra.
  apply (update_zero_stimulus_decay (mkEngine 0.5 (-0.25) 1 0.9 0.1 100) 700);
    simpl; lra.
Defined.

End EmotionEngineFacts.

(** Resolves the branches of [Rlt_dec], [Rle_dec] and [Req_EM_T] on
    concrete reals. *)
Ltac rdec :=
  repeat match goal with
  | |- context [Rlt_dec ?a ?b] => destruct (Rlt_dec a b); try lra
  | |- context [Rle_dec ?a ?b] => destruct (Rle_dec a b); try lra
  | |- context [Req_EM_T ?a ?b] => destruct (Req_EM_T a b); try lra
  | H : context [Rlt_dec ?a ?b] |- _ => destruct (Rlt_dec a b); try lra
  | H : context [Rle_dec ?a ?b] |- _ => destruct (Rle_dec a b); try lra
  end.

Module AmygdalaFacts.
Import Amygdala.

(** Claim C9 (code bug): [process] reads [state.arousal],
    [state.pleasure] and [state.dominance] as attributes, while a
    [CognitiveState] keeps them in its [pad_vector] dict (and dopamine
    and cortisol in [neurotransmitters]).  On any instance with no
    attribute beyond its dataclass fields, as the constructor builds it,
    the first read raises [AttributeError] before anything is computed,
    set or logged: the pass never raises cortisol or dopamine. *)
Theorem process_raises_attribute_error (log : list snapshot) (st : cog_state) :
  extra_attrs st = [] ->
  process log st = (st, Raise "AttributeError").
Proof.
  intros H. unfold process, get_attr. rewrite H. reflexivity.
Qed.

Lemma process_raises_attribute_error_witness :
  extra_attrs (new_cognitive_state "hi" 0) = [] /\
  process [mkSnapshot 0 (-0.5) 0.5 0 0.5 0.3] (new_cognitive_state "hi" 0)
    = (new_cognitive_state "hi" 0, Raise "AttributeError").
Proof.
  split; [reflexivity |].
  apply (process_raises_attribute_error [mkSnapshot 0 (-0.5) 0.5 0 0.5 0.3]
           (new_cognitive_state "hi" 0)).
  reflexivity.
Defined.

End AmygdalaFacts.

Module HippocampusStoreFacts.
Import Hippocampus.

(** Every key of the store is the string form of an id below the
    counter. *)
Definition store_wf (h : file_hippocampus) : Prop :=
  forall k m, In (k, m) (memories h) ->
    exists i, (i < next_id h)%Z /\ k = pretty i.

(** The record as stored: missing ["pad"] and ["timestamp"] filled. *)
Definition filled (em : memory) (now : R) : memory :=
  mkMemory (vector em) (Some (default (mkPad 0 0 0) (pad em)))
           (Some (default now (timestamp em))) (user_info em).

Lemma dict_set_fresh {V} (k : string) (v : V) d :
  (forall m, ~ In (k, m) d) -> dict_set k v d = d ++ [(k, v)].
Proof.
  induction d as [| [k' v'] d IH]; intros Hf; simpl; [reflexivity |].
  destruct (String.eqb_spec k k') as [-> | Hne].
  - exfalso. apply (Hf v'). left. reflexivity.
  - rewrite IH; [reflexivity |].
    intros m Hm. apply (Hf m). right. exact Hm.
Qed.

Lemma dict_get_app_fresh {V} (k k' : string) (v : V) d :
  k' <> k -> dict_get k' (d ++ [(k, v)]) = dict_get k' d.
Proof.
  intros Hne. induction d as [| [k0 v0] d IH]; simpl.
  - destruct (String.eqb_spec k' k); congruence.
  - destruct (String.eqb k' k0); [reflexivity | exact IH].
Qed.

Lemma dict_get_app_new {V} (k : string) (v : V) d :
  (forall m, ~ In (k, m) d) -> dict_get k (d ++ [(k, v)]) = Some v.
Proof.
  induction d as [| [k0 v0] d IH]; intros Hf; simpl.
  - rewrite String.eqb_refl. reflexivity.
  - destruct (String.eqb_spec k k0) as [-> | Hne].
    + exfalso. apply (Hf v0). left. reflexivity.
    + apply IH. intros m Hm. apply (Hf m). right. exact Hm.
Qed.

Lemma fresh_key h : store_wf h -> forall m, ~ In (pretty (next_id h), m) (memories h).
Proof.
  intros Hwf m Hin. destruct (Hwf _ _ Hin) as [i [Hi Heq]].
  apply (inj pretty) in Heq. lia.
Qed.

Lemma empty_store_wf : store_wf empty_store.
Proof. intros k m []. Qed.

(** Claim C10: [store_memory] raises exactly when the record has no
    ["vector"]; on success it returns the string form of the counter,
    increments the counter by one, appends the record (with a zero
    ["pad"] and the current time filled in when missing) after the
    unchanged previous records, and keeps the store well formed. *)
Theorem store_memory_contract (h : file_hippocampus) (em : memory) (now : R) :
  store_wf h ->
  let '(h', r) := store_memory h em now in
  ((exists e, r = Raise e) <-> vector em = None) /\
  (vector em <> None ->
     r = Return (pretty (next_id h)) /\
     next_id h' = (next_id h + 1)%Z /\
     memories h' = memories h ++ [(pretty (next_id h), filled em now)] /\
     dict_get (pretty (next_id h)) (memories h') = Some (filled em now) /\
     (forall k, k <> pretty (next_id h) ->
        dict_get k (memories h') = dict_get k (memories h))) /\
  store_wf h'.
Proof.
  intros Hwf. unfold store_memory. simpl.
  destruct (vector em) as [v |] eqn:Hv.
  - assert (Hm2 : (match timestamp
                       match pad em with
                       | Some _ => em
                       | None => set_pad em (mkPad 0 0 0)
                       end with
                   | Some _ => match pad em with
                               | Some _ => em
                               | None => set_pad em (mkPad 0 0 0)
                               end
                   | None => set_timestamp
                               match pad em with
                               | Some _ => em
                               | None => set_pad em (mkPad 0 0 0)
                               end now
                   end) = filled em now).
    { unfold filled, set_pad, set_timestamp.
      destruct em as [v0 p0 t0 u0]; simpl in *; subst.
      destruct p0, t0; reflexivity. }
    rewrite Hm2, dict_set_fresh by (apply fresh_key; exact Hwf). simpl.
    split; [split; [intros [e He]; discriminate | discriminate] |].
    split.
    + intros _. split; [reflexivity |]. split; [reflexivity |].
      split; [reflexivity |]. split.
      * apply dict_get_app_new, fresh_key, Hwf.
      * intros k Hk. apply dict_get_app_fresh. exact Hk.
    + intros k m Hin. apply in_app_or in Hin as [Hin | [Heq | []]].
      * destruct (Hwf _ _ Hin) as [i [Hi ->]]. exists i. cbn; split; [lia | reflexivity].
      * injection Heq as <- _. exists (next_id h). cbn; split; [lia | reflexivity].
  - split; [split; [reflexivity | intros _; eexists; reflexivity] |].
    split; [intros Hc; exfalso; apply Hc; reflexivity |].
    intros k m Hin. destruct (Hwf _ _ Hin) as [i [Hi ->]].
    exists i. simpl. split; [lia | reflexivity].
Qed.

Lemma store_memory_contract_witness :
  store_wf empty_store /\
  snd (store_memory empty_store (mkMemory (Some [1; 0]) None None None) 5)
    = Return (pretty 0%Z).
Proof.
  split; [apply empty_store_wf |].
  pose proof (store_memory_contract empty_store
                (mkMemory (Some [1; 0]) None None None) 5 empty_store_wf) as H.
  destruct (store_memory empty_store _ 5) as [h' r] eqn:E.
  destruct H as [_ [H _]]. simpl. apply H. discriminate.
Defined.

End HippocampusStoreFacts.

Module DepressionFacts.
Import Hippocampus Pathology DepressionSpec.

Lemma scale_pleasure_ok f m :
  pad_lacks_pleasure m = false -> scale_pleasure f m = Return (scaled f m).
Proof.
  unfold pad_lacks_pleasure, scale_pleasure, scaled, pad_pleasure.
  destruct (pad m) as [[[x |] a d] |]; cbn; congruence.
Qed.



Lemma depression_loop_kept severity rng n ms :
  Forall (fun m => pad_lacks_pleasure m = false) ms ->
  depression_loop severity rng n ms =
    (Return (map (scaled (1 - 0.8 * severity))
                 (kept_memories severity rng n ms)),
     (n + length (List.filter high_pleasure ms))%nat).
Proof.
  revert n. induction ms as [| m ms IH]; intros n Hf; simpl.
  - f_equal. lia.
  - inversion Hf as [| ? ? Hm Hf']; subst.
    rewrite (scale_pleasure_ok _ _ Hm).
    destruct (Rlt_dec 0.2 (memory_pleasure m)) as [Hp | Hp].
    + assert (Hh : high_pleasure m = true)
        by (unfold high_pleasure; rdec).
      rewrite Hh.
      destruct (Rlt_dec (rng n) (0.8 * severity)); rewrite (IH _ Hf'); simpl;
        f_equal; lia.
    + assert (Hh : high_pleasure m = false)
        by (unfold high_pleasure; rdec).
      rewrite Hh, (IH _ Hf'). reflexivity.
Qed.







End DepressionFacts.

Module ChainFacts.
Import Hippocampus Pathology.

(** A policy whose every distortion raises, as [DepressionPathology]
    does on a memory whose ["pad"] has no ["pleasure"] key. *)
Definition failing_policy : policy :=
  mkPolicy "failing" (fun _ => Return true) (fun _ _ => Raise "KeyError")
           (fun _ _ => Raise "KeyError").

(** A policy that keeps the first memory and leaves the query alone. *)
Definition first_only_policy : policy :=
  mkPolicy "first_only" (fun _ => Return true) (fun v _ => Return v)
           (fun ms _ => Return (firstn 1 ms)).

Definition m1 : memory := mkMemory (Some [1]) None None None.
Definition m2 : memory := mkMemory (Some [2]) None None None.
Definition es0 : emotional_state := mkEmotional 0 0 0 0.5 0.3 0.

(** Claim C7 (code bug): the chain the pipeline runs
    ([BasePathologyMiddleware]) aborts with the exception of a failing
    first policy instead of skipping it; its sibling
    [PathologyMiddlewareManager] skips it and runs the next policy. *)
Theorem base_chain_aborts_on_failing_policy :
  base_distort_memories [failing_policy; first_only_policy] [m1; m2] es0
    = Raise "KeyError" /\
  base_distort_query [failing_policy; first_only_policy] [1; 2] es0
    = Raise "KeyError" /\
  cs_distorted_memories
    (manager_process [failing_policy; first_only_policy]
       (mkChainState [m1; m2] [] None es0)) = [m1] /\
  manager_query_loop [failing_policy; first_only_policy] [1; 2] es0 = [1; 2].
Proof. repeat split; reflexivity. Qed.

End ChainFacts.

Module ArticulationFacts.
Import MotorCortex ArticulationSpec.

Lemma not_last_index i total :
  Nat.ltb i (total - 1) = Nat.ltb (S i) total.
Proof.
  destruct (Nat.ltb_spec i (total - 1)), (Nat.ltb_spec (S i) total);
    reflexivity || lia.
Qed.

Lemma articulate_loop_cons mc ps rng total i seg rest n :
  articulate_loop mc ps rng total i (seg :: rest) n =
    let '(acts, n') := articulate_loop mc ps rng total (S i) rest
                         (n + draws_per_segment ps) in
    (segment_block mc ps rng total i n seg ++ acts, n').
Proof.
  cbn [articulate_loop]. unfold segment_block, draws_per_segment.
  rewrite not_last_index.
  destruct (Rlt_dec 0.7 (ps_cortisol ps)).
  - replace (n + 2)%nat with (S (S n)) by lia.
    destruct (articulate_loop _ _ _ _ _ _ _). reflexivity.
  - replace (n + 1)%nat with (S n) by lia.
    destruct (articulate_loop _ _ _ _ _ _ _). reflexivity.
Qed.

Lemma articulate_loop_stream mc ps rng total segs : forall i n,
  articulate_loop mc ps rng total i segs n =
    (concat (imap (fun j seg =>
       segment_block mc ps rng total (i + j)
         (n + draws_per_segment ps * j) seg) segs),
     (n + draws_per_segment ps * length segs)%nat).
Proof.
  induction segs as [| seg rest IH]; intros i n.
  - simpl. f_equal. lia.
  - rewrite articulate_loop_cons, IH, imap_cons. cbn [concat length].
    f_equal; [| lia].
    f_equal.
    + f_equal; lia.
    + f_equal. apply imap_ext. intros j x _.
      assert (E1 : (S i + j = i + S j)%nat) by lia.
      assert (E2 : (n + draws_per_segment ps + draws_per_segment ps * j
                    = n + draws_per_segment ps * S j)%nat) by lia.
      unfold compose. cbv beta. rewrite E1, E2. reflexivity.
Qed.

(** Claim C5: for every text and affect state, the action list is, for
    each segment in order, one typing event, then (exactly when
    cortisol > 0.7) one wait of [uniform(1.0, 3.0)] seconds, then one
    message carrying the segment, then one wait of the hesitation
    duration exactly when the segment is not the last; each stress wait
    lies in [1, 3] when its draw lies in [0, 1]. *)
Theorem articulate_emission_order (mc : motor_cortex) (t : text)
    (ps : pad_state) (rng : rng_t) (n : nat) :
  fst (articulate mc t ps rng n)
    = expected_stream mc ps rng n (_segment_text mc t ps) /\
  (forall j, 0 <= rng j <= 1 -> 1 <= uniform 1 3 rng j <= 3).
Proof.
  split.
  - unfold articulate, expected_stream. rewrite articulate_loop_stream.
    reflexivity.
  - intros j Hj. unfold uniform. lra.
Qed.

Lemma segment_text_nonempty mc t ps :
  strip t <> [] -> _segment_text mc t ps <> [].
Proof.
  intros H. unfold _segment_text.
  destruct (segment_loop _ _ _ _ _) as [bubbles buf].
  destruct (if bool_decide (strip buf = []) then bubbles
            else bubbles ++ [buf]) as [| x l].
  - rewrite bool_decide_false by exact H. discriminate.
  - discriminate.
Qed.

(** Claim C8 (counterexample): the non-empty text " " (one space) yields
    no segment and no action at all. *)
Lemma whitespace_text_no_message_counterexample :
  let ps := mkPadState 0 0 0 0.5 0.3 in
  ([32%Z] : text) <> [] /\
  fst (articulate default_motor_cortex [32%Z] ps (fun _ => 0) 0) = [].
Proof. split; [discriminate | reflexivity]. Qed.

(** Claim C8 (amended): for every text that contains a non-whitespace
    character and every affect state, the action list contains at least
    one message. *)
Theorem articulate_has_message (mc : motor_cortex) (t : text)
    (ps : pad_state) (rng : rng_t) (n : nat) :
  strip t <> [] ->
  exists seg, In (Message seg) (fst (articulate mc t ps rng n)).
Proof.
  intros H. pose proof (segment_text_nonempty mc t ps H) as Hne.
  unfold articulate. rewrite articulate_loop_stream.
  destruct (_segment_text mc t ps) as [| seg rest]; [congruence |].
  exists seg. rewrite imap_cons. cbn [concat fst].
  apply in_or_app. left. unfold segment_block.
  apply in_or_app. right. apply in_or_app. right.
  apply in_or_app. left. left. reflexivity.
Qed.

Lemma articulate_has_message_witness :
  let t : text := [20320%Z; 12290%Z] in
  strip t <> [] /\
  exists seg, In (Message seg)
    (fst (articulate default_motor_cortex t (mkPadState 0 0 0 0.5 0.3)
            (fun _ => 0) 0)).
Proof.
  split; [discriminate |].
  apply (articulate_has_message default_motor_cortex [20320%Z; 12290%Z]).
  discriminate.
Defined.

End ArticulationFacts.

(** ** The reverse sort of [retrieve_memories] on finite keys *)
Module SortFacts.
Section Sorting.
Context {A : Type} (kr : A -> R).

Let key (x : A) : pyfloat := Fin (kr x).

Lemma py_lt_fin a b : py_lt (Fin a) (Fin b) = if Rlt_dec a b then true else false.
Proof. reflexivity. Qed.

Lemma sort_insert_in x l z : In z (sort_insert key x l) -> z = x \/ In z l.
Proof.
induction l as [| y l IH]; simpl.
- intros [H | []]. left. symmetry. exact H.
- destruct (Rlt_dec (kr x) (kr y)).
  + intros [H | Hz]; [left; symmetry; exact H | right; exact Hz].
  + intros [H | Hz]; [right; left; exact H |].
    destruct (IH Hz) as [H' | Hz']; [left; exact H' | right; right; exact Hz'].
Qed.

Lemma sort_insert_perm x l : Permutation (sort_insert key x l) (x :: l).
Proof.
induction l as [| y l IH]; simpl; [reflexivity |].
destruct (Rlt_dec (kr x) (kr y)); [reflexivity |].
rewrite IH. constructor.
Qed.

Definition le_key (a b : A) : Prop := kr a <= kr b.

Lemma sort_insert_sorted x l :
StronglySorted le_key l -> StronglySorted le_key (sort_insert key x l).
Proof.
induction l as [| y l IH]; intros Hs; simpl.
- repeat constructor.
- apply StronglySorted_inv in Hs as [Hs Hy].
  destruct (Rlt_dec (kr x) (kr y)) as [Hlt | Hge].
  + constructor; [constructor; assumption |].
    constructor; [unfold le_key; lra |].
    eapply Forall_impl; [exact Hy |]. intros z Hz. unfold le_key in *. lra.
  + constructor; [apply IH, Hs |].
    apply List.Forall_forall. intros z Hz.
    destruct (sort_insert_in x l z Hz) as [Hzx | Hin].
    * subst z. unfold le_key. lra.
    * rewrite List.Forall_forall in Hy. apply Hy, Hin.
Qed.

Lemma filter_none (P : A -> bool) l :
(forall z, In z l -> P z = false) -> List.filter P l = [].
Proof.
induction l as [| y l IH]; intros H; simpl; [reflexivity |].
rewrite (H y (or_introl eq_refl)). apply IH.
intros z Hz. apply H. right. exact Hz.
Qed.

Lemma sort_insert_filter r x l :
StronglySorted le_key l ->
List.filter (fun z => if Req_EM_T (kr z) r then true else false)
  (sort_insert key x l)
= List.filter (fun z => if Req_EM_T (kr z) r then true else false) l
  ++ (if Req_EM_T (kr x) r then [x] else []).
Proof.
induction l as [| y l IH]; intros Hs; simpl.
- destruct (Req_EM_T (kr x) r); reflexivity.
- apply StronglySorted_inv in Hs as [Hs Hy].
  destruct (Rlt_dec (kr x) (kr y)) as [Hlt | Hge].
  + simpl. destruct (Req_EM_T (kr x) r) as [Hx | Hx].
    * (* every element of [y :: l] has a key above [r] *)
      assert (Hnone : List.filter
                (fun z => if Req_EM_T (kr z) r then true else false)
                (y :: l) = []).
      { apply filter_none. intros z [Hyz | Hz].
        - subst z. destruct (Req_EM_T (kr y) r); [lra | reflexivity].
        - rewrite List.Forall_forall in Hy. specialize (Hy z Hz).
          unfold le_key in Hy.
          destruct (Req_EM_T (kr z) r); [lra | reflexivity]. }
      simpl in Hnone. rewrite Hnone. reflexivity.
    * rewrite app_nil_r. reflexivity.
  + simpl. rewrite IH by exact Hs.
    destruct (Req_EM_T (kr y) r); reflexivity.
Qed.

Lemma sort_asc_go_perm l acc :
Permutation (fold_left (fun acc x => sort_insert key x acc) l acc) (acc ++ l).
Proof.
revert acc. induction l as [| x l IH]; intros acc; simpl.
- rewrite app_nil_r. reflexivity.
- rewrite IH, sort_insert_perm.
  rewrite <- Permutation_middle. reflexivity.
Qed.

Lemma sort_asc_go_sorted l acc :
StronglySorted le_key acc ->
StronglySorted le_key (fold_left (fun acc x => sort_insert key x acc) l acc).
Proof.
revert acc. induction l as [| x l IH]; intros acc Hs; simpl; [exact Hs |].
apply IH, sort_insert_sorted, Hs.
Qed.

Lemma sort_asc_go_filter r l acc :
StronglySorted le_key acc ->
List.filter (fun z => if Req_EM_T (kr z) r then true else false)
  (fold_left (fun acc x => sort_insert key x acc) l acc)
= List.filter (fun z => if Req_EM_T (kr z) r then true else false) acc
  ++ List.filter (fun z => if Req_EM_T (kr z) r then true else false) l.
Proof.
revert acc. induction l as [| x l IH]; intros acc Hs; simpl.
- rewrite app_nil_r. reflexivity.
- rewrite IH by (apply sort_insert_sorted, Hs).
  rewrite sort_insert_filter by exact Hs. rewrite <- app_assoc.
  destruct (Req_EM_T (kr x) r); reflexivity.
Qed.

Lemma StronglySorted_app (Rel : A -> A -> Prop) l1 l2 :
StronglySorted Rel l1 -> StronglySorted Rel l2 ->
(forall a b, In a l1 -> In b l2 -> Rel a b) ->
StronglySorted Rel (l1 ++ l2).
Proof.
induction l1 as [| x l1 IH]; intros H1 H2 H12; simpl; [exact H2 |].
apply StronglySorted_inv in H1 as [H1 Hx].
constructor.
- apply IH; [exact H1 | exact H2 |]. intros a b Ha Hb. apply H12; [right |]; assumption.
- apply Forall_app. split; [exact Hx |].
  apply List.Forall_forall. intros b Hb. apply H12; [left; reflexivity | exact Hb].
Qed.

Lemma StronglySorted_rev (Rel : A -> A -> Prop) l :
StronglySorted Rel l -> StronglySorted (fun a b => Rel b a) (rev l).
Proof.
induction l as [| x l IH]; intros Hs; simpl; [constructor |].
apply StronglySorted_inv in Hs as [Hs Hx].
apply StronglySorted_app; [apply IH, Hs | repeat constructor |].
intros a b Ha [<- | []]. rewrite List.Forall_forall in Hx.
apply Hx. apply in_rev, Ha.
Qed.

Lemma filter_rev (P : A -> bool) l :
List.filter P (rev l) = rev (List.filter P l).
Proof.
induction l as [| x l IH]; simpl; [reflexivity |].
rewrite List.filter_app, IH. simpl. destruct (P x); simpl.
- reflexivity.
- apply app_nil_r.
Qed.

(** CPython's [sort(key=..., reverse=True)] on finite keys: a
  permutation, sorted by descending key, that keeps the input order of
  the elements with equal keys. *)
Lemma py_sort_reverse_perm l : Permutation (py_sort_reverse key l) l.
Proof.
unfold py_sort_reverse, sort_asc. rewrite <- Permutation_rev.
rewrite sort_asc_go_perm. simpl. symmetry. apply Permutation_rev.
Qed.

Lemma py_sort_reverse_sorted l :
StronglySorted (fun a b => kr b <= kr a) (py_sort_reverse key l).
Proof.
unfold py_sort_reverse, sort_asc.
apply (StronglySorted_rev le_key), sort_asc_go_sorted. constructor.
Qed.

Lemma py_sort_reverse_stable r l :
List.filter (fun z => if Req_EM_T (kr z) r then true else false)
  (py_sort_reverse key l)
= List.filter (fun z => if Req_EM_T (kr z) r then true else false) l.
Proof.
unfold py_sort_reverse, sort_asc.
rewrite filter_rev, sort_asc_go_filter by constructor. simpl.
rewrite filter_rev, rev_involutive. reflexivity.
Qed.

End Sorting.

(** The sort only looks at the keys. *)
Lemma sort_asc_map {A B} (keyA : A -> pyfloat) (keyB : B -> pyfloat)
    (f : A -> B) l :
  (forall x, keyB (f x) = keyA x) ->
  sort_asc keyB (map f l) = map f (sort_asc keyA l).
Proof.
  intros Hk. unfold sort_asc.
  assert (Hins : forall x acc, sort_insert keyB (f x) (map f acc)
                               = map f (sort_insert keyA x acc)).
  { intros x acc. induction acc as [| y acc IH]; simpl; [reflexivity |].
    rewrite !Hk. destruct (py_lt (keyA x) (keyA y)); simpl;
      [reflexivity | rewrite IH; reflexivity]. }
  assert (G : forall acc,
    fold_left (fun acc x => sort_insert keyB x acc) (map f l) (map f acc)
    = map f (fold_left (fun acc x => sort_insert keyA x acc) l acc)).
  { induction l as [| x l IH]; intros acc; simpl; [reflexivity |].
    rewrite Hins. apply IH. }
  apply (G []).
Qed.

Lemma py_sort_reverse_map {A B} (keyA : A -> pyfloat) (keyB : B -> pyfloat)
    (f : A -> B) l :
  (forall x, keyB (f x) = keyA x) ->
  py_sort_reverse keyB (map f l) = map f (py_sort_reverse keyA l).
Proof.
  intros Hk. unfold py_sort_reverse.
  rewrite <- map_rev, (sort_asc_map keyA keyB f) by exact Hk.
  symmetry. apply map_rev.
Qed.

End SortFacts.

Module RankFacts.
Import Hippocampus RetrievalSpec SortFacts.

Definition desc (a b : R * memory) : Prop := fst b <= fst a.

Lemma insert_desc_perm x l : Permutation (insert_desc x l) (x :: l).
Proof.
  induction l as [| y l IH]; simpl; [reflexivity |].
  destruct (Rlt_dec (fst x) (fst y)); [| reflexivity].
  rewrite IH. constructor.
Qed.

Lemma insert_desc_sorted x l :
  StronglySorted desc l -> StronglySorted desc (insert_desc x l).
Proof.
  induction l as [| y l IH]; intros Hs; simpl; [repeat constructor |].
  apply StronglySorted_inv in Hs as [Hs Hy].
  destruct (Rlt_dec (fst x) (fst y)) as [Hlt | Hge].
  - constructor; [apply IH, Hs |].
    apply List.Forall_forall. intros z Hz.
    apply (Permutation_in _ (insert_desc_perm x l)) in Hz as [<- | Hz].
    + unfold desc. lra.
    + rewrite List.Forall_forall in Hy. apply Hy, Hz.
  - constructor; [constructor; assumption |].
    constructor; [unfold desc; lra |].
    eapply Forall_impl; [exact Hy |]. intros z Hz. unfold desc in *. lra.
Qed.

Lemma insert_desc_filter r x l :
  StronglySorted desc l ->
  List.filter (score_is r) (insert_desc x l)
  = (if score_is r x then [x] else []) ++ List.filter (score_is r) l.
Proof.
  induction l as [| y l IH]; intros Hs; simpl.
  - destruct (score_is r x); reflexivity.
  - apply StronglySorted_inv in Hs as [Hs Hy].
    destruct (Rlt_dec (fst x) (fst y)) as [Hlt | Hge].
    + simpl. rewrite IH by exact Hs.
      unfold score_is. destruct (Req_EM_T (fst x) r) as [Hx | Hx];
        destruct (Req_EM_T (fst y) r) as [Hy' | Hy']; try lra; reflexivity.
    + simpl. destruct (score_is r x); reflexivity.
Qed.

Lemma rank_desc_perm l : Permutation (rank_desc l) l.
Proof.
  induction l as [| x l IH]; simpl; [reflexivity |].
  rewrite insert_desc_perm, IH. reflexivity.
Qed.

Lemma rank_desc_sorted l : StronglySorted desc (rank_desc l).
Proof.
  induction l as [| x l IH]; simpl; [constructor |].
  apply insert_desc_sorted, IH.
Qed.

Lemma rank_desc_stable r l :
  List.filter (score_is r) (rank_desc l) = List.filter (score_is r) l.
Proof.
  induction l as [| x l IH]; simpl; [reflexivity |].
  rewrite insert_desc_filter by apply rank_desc_sorted. rewrite IH.
  destruct (score_is r x); reflexivity.
Qed.

Lemma score_is_self x : score_is (fst x) x = true.
Proof. unfold score_is. destruct (Req_EM_T (fst x) (fst x)); [reflexivity | lra]. Qed.

Lemma in_filter_score_is r x l : In x (List.filter (score_is r) l) -> In x l.
Proof. intros H. apply filter_In in H. apply H. Qed.

(** Two descending rankings that agree on the order of every group of
    equal scores are the same list. *)
Lemma desc_stable_unique l1 l2 :
  StronglySorted desc l1 -> StronglySorted desc l2 ->
  (forall r, List.filter (score_is r) l1 = List.filter (score_is r) l2) ->
  l1 = l2.
Proof.
  revert l2. induction l1 as [| x l1 IH]; intros l2 H1 H2 Hf.
  - destruct l2 as [| y l2]; [reflexivity |].
    specialize (Hf (fst y)). simpl in Hf. rewrite score_is_self in Hf.
    discriminate.
  - destruct l2 as [| y l2].
    + specialize (Hf (fst x)). simpl in Hf. rewrite score_is_self in Hf.
      discriminate.
    + apply StronglySorted_inv in H1 as [H1 Hx].
      apply StronglySorted_inv in H2 as [H2 Hy].
      rewrite List.Forall_forall in Hx, Hy.
      (* [y] occurs in [x :: l1], so its score is at most [fst x], and
         conversely *)
      assert (Hyx : fst y <= fst x).
      { assert (Hin : In y (List.filter (score_is (fst y)) (x :: l1))).
        { rewrite Hf. simpl. rewrite score_is_self. left. reflexivity. }
        apply in_filter_score_is in Hin as [<- | Hin]; [lra |].
        apply Hx, Hin. }
      assert (Hxy : fst x <= fst y).
      { assert (Hin : In x (List.filter (score_is (fst x)) (y :: l2))).
        { rewrite <- Hf. simpl. rewrite score_is_self. left. reflexivity. }
        apply in_filter_score_is in Hin as [-> | Hin]; [lra |].
        apply Hy, Hin. }
      assert (Hs : score_is (fst x) y = true).
      { unfold score_is. destruct (Req_EM_T (fst y) (fst x)); [reflexivity | lra]. }
      assert (Exy : x = y).
      { specialize (Hf (fst x)). simpl in Hf. rewrite score_is_self, Hs in Hf.
        injection Hf as E _. exact E. }
      subst y. f_equal. apply IH; [exact H1 | exact H2 |].
      intros r. specialize (Hf r). simpl in Hf.
      destruct (score_is r x); [injection Hf as Hf |]; exact Hf.
Qed.

(** CPython's [sort(key=score, reverse=True)] on finite scores is the
    ranking [rank_desc]. *)
Lemma py_sort_reverse_rank_desc l :
  py_sort_reverse (fun e : R * memory => Fin (fst e)) l = rank_desc l.
Proof.
  apply desc_stable_unique.
  - apply (py_sort_reverse_sorted fst).
  - apply rank_desc_sorted.
  - intros r. rewrite rank_desc_stable. apply (py_sort_reverse_stable fst).
Qed.

End RankFacts.

Module HippocampusRetrieveFacts.
Import Hippocampus RetrievalSpec SortFacts RankFacts.

Lemma np_dot_rdot a b : length a = length b -> np_dot a b = Some (rdot a b).
Proof.
  revert b. induction a as [| x a IH]; intros [| y b] Hl; simpl in *;
    try discriminate; [reflexivity |].
  rewrite IH by lia. reflexivity.
Qed.

Lemma np_dot_length a b : length a = length b -> exists d, np_dot a b = Some d.
Proof. intros Hl. exists (rdot a b). apply np_dot_rdot, Hl. Qed.

Lemma sum_sq_nonneg a : 0 <= sum_sq a.
Proof.
  induction a as [| x a IH]; simpl; [lra |].
  pose proof (Rle_0_sqr x). unfold Rsqr in *. lra.
Qed.

Lemma sum_sq_zero a : sum_sq a = 0 <-> all_zero a.
Proof.
  unfold all_zero. induction a as [| x a IH]; simpl.
  - split; [constructor | reflexivity].
  - pose proof (sum_sq_nonneg a). pose proof (Rle_0_sqr x). unfold Rsqr in *.
    split.
    + intros Hs. assert (Hx : x * x = 0) by lra.
      constructor; [nra | apply IH; lra].
    + intros Hs. inversion Hs as [| ? ? Hx Ha]; subst.
      rewrite (proj2 IH Ha). ring.
Qed.

Lemma np_norm_zero a : np_norm a = 0 <-> all_zero a.
Proof.
  unfold np_norm. rewrite <- sum_sq_zero. split.
  - intros H. apply sqrt_eq_0; [apply sum_sq_nonneg | exact H].
  - intros ->. apply sqrt_0.
Qed.

Lemma nonzero_not_all_zero a : nonzero a -> ~ all_zero a.
Proof.
  unfold nonzero, all_zero. intros Hn Hz.
  apply List.Exists_exists in Hn as [x [Hin Hx]].
  rewrite List.Forall_forall in Hz. apply Hx, Hz, Hin.
Qed.

Lemma np_norm_pos a : nonzero a -> 0 < np_norm a.
Proof.
  intros Hn. pose proof (sqrt_pos (sum_sq a)) as H. fold (np_norm a) in H.
  destruct (Req_EM_T (np_norm a) 0) as [H0 | H0]; [| lra].
  exfalso. apply (nonzero_not_all_zero a Hn), np_norm_zero, H0.
Qed.

Lemma rdot_zero_l a b : all_zero a -> rdot a b = 0.
Proof.
  unfold all_zero. revert b. induction a as [| x a IH]; intros [| y b] H;
    simpl; try reflexivity.
  inversion H; subst. rewrite IH by assumption. ring.
Qed.

Lemma rdot_zero_r a b : all_zero b -> rdot a b = 0.
Proof.
  unfold all_zero. revert b. induction a as [| x a IH]; intros [| y b] H;
    simpl; try reflexivity.
  inversion H; subst. rewrite IH by assumption. ring.
Qed.

Lemma importance_score_spec now m :
  importance_score now m * 0.3 = 0.3 * spec_importance now m.
Proof.
  unfold importance_score, spec_importance, Rpower.
  replace (- ln 2 * (now - default now (timestamp m)) / (24 * 3600))
    with (- (now - default now (timestamp m)) / 86400 * ln 2)
    by (field; lra).
  destruct (pad m) as [p |]; cbn [default];
    [| unfold pad_pleasure, pad_arousal, pad_dominance; cbn];
    (destruct (user_info m) as [keys |]; [destruct (decide _) |]; ring).
Qed.

Lemma total_score_fin q now m v :
  vector m = Some v -> length v = length q -> nonzero q -> nonzero v ->
  total_score q now m = Return (Fin (spec_score q now m)).
Proof.
  intros Hv Hl Hq Hnv. unfold total_score, spec_score, cosine_similarity.
  rewrite Hv, np_dot_rdot by lia. simpl. unfold np_div.
  pose proof (np_norm_pos q Hq) as Hpq. pose proof (np_norm_pos v Hnv) as Hpv.
  destruct (Req_EM_T (np_norm q * np_norm v) 0) as [H0 | H0]; [nra |].
  simpl. f_equal. f_equal. rewrite importance_score_spec. ring.
Qed.

Definition well_formed_query (q : list R) (ms : list (string * memory)) : Prop :=
  forall k m, In (k, m) ms ->
    exists v, vector m = Some v /\ length v = length q /\ nonzero v.

Lemma score_all_map q now ms :
  nonzero q -> well_formed_query q ms ->
  score_all q now ms
    = Return (map (fun km => (Fin (spec_score q now (snd km)), snd km)) ms).
Proof.
  intros Hq. induction ms as [| [k m] ms IH]; intros Hwf; simpl; [reflexivity |].
  destruct (Hwf k m (or_introl eq_refl)) as [v [Hv [Hl Hnv]]].
  rewrite (total_score_fin q now m v Hv Hl Hq Hnv).
  rewrite IH; [reflexivity |].
  intros k' m' Hin. apply (Hwf k' m'). right. exact Hin.
Qed.

Lemma score_all_return q now ms :
  (forall k m, In (k, m) ms -> exists v, vector m = Some v /\ length v = length q) ->
  exists l, score_all q now ms = Return l.
Proof.
  induction ms as [| [k m] ms IH]; intros Hwf; simpl; [eexists; reflexivity |].
  destruct (Hwf k m (or_introl eq_refl)) as [v [Hv Hl]].
  unfold total_score at 1. rewrite Hv.
  destruct (np_dot_length q v ltac:(lia)) as [d Hd].
  unfold cosine_similarity. rewrite Hd. simpl.
  destruct IH as [l Hl']; [intros k' m' Hin; apply (Hwf k' m'); right; exact Hin |].
  rewrite Hl'. eexists. reflexivity.
Qed.

(** Claim C2 (counterexample): a record whose user info is non-empty but
    has no ["name"] key gets no identity bonus: with query and vector
    [1], no affect and age 0, its score is [0.7 + 0.3 * 0.4] and not
    [0.7 + 0.3 * (0.4 + 0.3)].  Besides, a negative [limit] slices from
    the end: on a store of two records, [limit = -1] returns one record,
    more than [limit]. *)
Lemma user_info_without_name_counterexample :
  let m := mkMemory (Some [1]) None (Some 0) (Some ["city"%string]) in
  total_score [1] 0 m = Return (Fin (0.7 + 0.3 * 0.4)) /\
  0.7 + 0.3 * 0.4 <> 0.7 + 0.3 * (0.4 + 0.3) /\
  exists res,
    retrieve_memories (mkHippocampus [("0"%string, m); ("1"%string, m)] 2)
      [1] (-1) 0 = Return res /\
    (Z.of_nat (length res) > -1)%Z.
Proof.
  intros m. split; [| split; [lra |]].
  - unfold total_score, cosine_similarity, importance_score, np_norm, sum_sq,
      pad_pleasure, pad_arousal, pad_dominance.
    simpl.
    replace (1 * 1 + 0) with 1 by ring. rewrite sqrt_1.
    replace (- ln 2 * (0 - 0) / (24 * 3600)) with 0 by (field; lra).
    rewrite exp_0. unfold np_div. rdec. simpl.
    rewrite Rabs_R0. do 2 f_equal. field.
  - assert (Hwf : well_formed_query [1] [("0"%string, m); ("1"%string, m)]).
    { intros k m' [Hkm | [Hkm | []]]; injection Hkm as _ <-;
        exists [1]; (split; [reflexivity | split; [reflexivity |]]);
        constructor; lra. }
    assert (Hq : nonzero [1]) by (constructor; lra).
    unfold retrieve_memories. cbn [memories].
    rewrite score_all_map by assumption.
    eexists. split; [reflexivity |].
    unfold py_slice_prefix. cbn -[py_sort_reverse].
    rewrite length_map, length_firstn.
    set (sc := spec_score [1] 0 m).
    change [(Fin sc, m); (Fin sc, m)]
      with (map (fun e : R * memory => (Fin (fst e), snd e)) [(sc, m); (sc, m)]).
    rewrite (py_sort_reverse_map (fun e : R * memory => Fin (fst e)) fst
               (fun e => (Fin (fst e), snd e))) by reflexivity.
    rewrite length_map, (Permutation_length (py_sort_reverse_perm fst _)).
    simpl. lia.
Qed.

(** Claim C2 (amended): an empty store gives the empty list, whatever
    the query and the limit.  For a limit >= 0, a non-zero query and
    records whose vectors are non-zero and of the query's dimension,
    [retrieve_memories] returns the first [limit] records of the ranking
    [rank_desc] of the records scored by
    [0.7 * cosine + 0.3 * importance], the identity bonus being given
    only to user info that has a ["name"] key: a permutation of the
    records sorted by descending score that keeps insertion order among
    equal scores; so at most [limit] records. *)
Theorem retrieve_memories_ranking (h : file_hippocampus) (q : list R)
    (limit : Z) (now : R) :
  (memories h = [] -> retrieve_memories h q limit now = Return []) /\
  ((0 <= limit)%Z -> nonzero q -> well_formed_query q (memories h) ->
   let scored := map (fun km => (spec_score q now (snd km), snd km))
                     (memories h) in
   let ranked := rank_desc scored in
   retrieve_memories h q limit now
     = Return (map snd (firstn (Z.to_nat limit) ranked)) /\
   (Z.of_nat (length (firstn (Z.to_nat limit) ranked)) <= limit)%Z /\
   Permutation ranked scored /\
   StronglySorted (fun a b => fst b <= fst a) ranked /\
   (forall r, List.filter (score_is r) ranked
              = List.filter (score_is r) scored)).
Proof.
  split; [intros He; unfold retrieve_memories; rewrite He; reflexivity |].
  intros Hlim Hq Hwf scored ranked.
  split; [| split; [| split; [| split]]].
  - assert (Hmap : retrieve_memories h q limit now = Return
      (map snd (py_slice_prefix limit
        (py_sort_reverse fst (map (fun e => (Fin (fst e), snd e)) scored))))).
    { unfold retrieve_memories, scored.
      destruct (memories h) as [| km ms] eqn:Hm;
        [unfold py_slice_prefix; destruct (0 <=? limit)%Z; simpl;
         rewrite ?firstn_nil; reflexivity |].
      rewrite <- Hm, score_all_map by (rewrite ?Hm; assumption).
      rewrite Hm, map_map. reflexivity. }
    rewrite Hmap.
    rewrite (py_sort_reverse_map (fun e : R * memory => Fin (fst e)) fst
               (fun e => (Fin (fst e), snd e))) by reflexivity.
    rewrite py_sort_reverse_rank_desc.
    unfold py_slice_prefix. destruct (Z.leb_spec 0 limit); [| lia].
    rewrite firstn_map, map_map. reflexivity.
  - rewrite length_firstn. lia.
  - apply rank_desc_perm.
  - apply rank_desc_sorted.
  - intros r. apply rank_desc_stable.
Qed.

Lemma sqrt_sum_sq_10 : np_norm [1; 0] = 1.
Proof.
  unfold np_norm, sum_sq. simpl.
  replace (1 * 1 + (0 * 0 + 0)) with 1 by ring. apply sqrt_1.
Qed.

Lemma sqrt_sum_sq_20 : np_norm [2; 0] = 2.
Proof.
  unfold np_norm, sum_sq. simpl.
  replace (2 * 2 + (0 * 0 + 0)) with (2 * 2) by ring.
  apply sqrt_square. lra.
Qed.

Lemma sqrt_sum_sq_01 : np_norm [0; 1] = 1.
Proof.
  unfold np_norm, sum_sq. simpl.
  replace (0 * 0 + (1 * 1 + 0)) with 1 by ring. apply sqrt_1.
Qed.

(** The importance of a record stored at time 0, read at time 0, with
    no affect and no user info. *)
Lemma spec_importance_fresh v :
  spec_importance 0 (mkMemory v None (Some 0) None) = 0.4.
Proof.
  unfold spec_importance, pad_pleasure, pad_arousal, pad_dominance. cbn.
  replace (- (0 - 0) / 86400) with 0 by (field; lra).
  rewrite Rpower_O by lra. rewrite Rabs_R0. lra.
Qed.

Lemma retrieve_memories_ranking_witness :
  let mB := mkMemory (Some [0; 1]) None (Some 0) None in
  let mA1 := mkMemory (Some [1; 0]) None (Some 0) None in
  let mA2 := mkMemory (Some [2; 0]) None (Some 0) None in
  let h := mkHippocampus [("0", mB); ("1", mA1); ("2", mA2)]%string 3 in
  (0 <= 2)%Z /\ nonzero [1; 0] /\ well_formed_query [1; 0] (memories h) /\
  retrieve_memories h [1; 0] 2 0 = Return [mA1; mA2].
Proof.
  intros mB mA1 mA2 h.
  assert (Hq : nonzero [1; 0]) by (constructor; lra).
  assert (Hwf : well_formed_query [1; 0] (memories h)).
  { intros k m [Hkm | [Hkm | [Hkm | []]]]; injection Hkm as _ <-;
      [exists [0; 1] | exists [1; 0] | exists [2; 0]];
      (split; [reflexivity | split; [reflexivity |]]);
      [right; left | left | left]; lra. }
  split; [lia |]. split; [exact Hq |]. split; [exact Hwf |].
  destruct (proj2 (retrieve_memories_ranking h [1; 0] 2 0) ltac:(lia) Hq Hwf)
    as [Hr _].
  rewrite Hr. unfold h. cbn [memories map snd].
  assert (EB : spec_score [1; 0] 0 mB = 0.12).
  { unfold spec_score, mB. rewrite spec_importance_fresh. cbn [default vector Datatypes.id].
    rewrite sqrt_sum_sq_10, sqrt_sum_sq_01. cbn [rdot].
    replace (1 * 1) with 1 by ring. unfold Rdiv. rewrite Rinv_1. lra. }
  assert (EA1 : spec_score [1; 0] 0 mA1 = 0.82).
  { unfold spec_score, mA1. rewrite spec_importance_fresh. cbn [default vector Datatypes.id].
    rewrite sqrt_sum_sq_10. cbn [rdot].
    replace (1 * 1) with 1 by ring. unfold Rdiv. rewrite Rinv_1. lra. }
  assert (EA2 : spec_score [1; 0] 0 mA2 = 0.82).
  { unfold spec_score, mA2. rewrite spec_importance_fresh. cbn [default vector Datatypes.id].
    rewrite sqrt_sum_sq_10, sqrt_sum_sq_20. cbn [rdot].
    replace (1 * 2) with 2 by ring.
    replace (2 + (0 * 0 + 0)) with 2 by ring.
    unfold Rdiv. rewrite Rinv_r by lra. lra. }
  rewrite EB, EA1, EA2. unfold rank_desc. cbn [fold_right insert_desc fst].
  rdec. cbn [insert_desc fst]. rdec. reflexivity.
Defined.

(** Claim C6 (counterexample): with the zero query [0; 0] and a stored
    vector [1; 0], the similarity is NaN (numpy's 0/0), not 0, and so is
    the score. *)
Lemma zero_query_similarity_counterexample :
  cosine_similarity [0; 0] [1; 0] = Some NaN /\
  total_score [0; 0] 0 (mkMemory (Some [1; 0]) None None None) = Return NaN.
Proof.
  assert (Hc : cosine_similarity [0; 0] [1; 0] = Some NaN).
  { unfold cosine_similarity, np_norm, sum_sq. simpl.
    replace (0 * 0 + (0 * 0 + 0)) with 0 by ring. rewrite sqrt_0.
    unfold np_div. rdec. reflexivity. }
  split; [exact Hc |]. unfold total_score. cbn [vector]. rewrite Hc.
  reflexivity.
Qed.

(** Claim C6 (amended): there is no zero-vector guard.  For a query and
    a record vector of the same dimension, the similarity is NaN exactly
    when one of them is the zero vector, and then the record's score is
    NaN; retrieval still returns a list rather than raising. *)
Theorem cosine_similarity_nan_iff_zero (q v : list R) :
  length q = length v ->
  (cosine_similarity q v = Some NaN <-> all_zero q \/ all_zero v) /\
  ((all_zero q \/ all_zero v) ->
     forall now m, vector m = Some v -> total_score q now m = Return NaN) /\
  (forall h limit now,
     (forall k m, In (k, m) (memories h) ->
        exists w, vector m = Some w /\ length w = length q) ->
     exists res, retrieve_memories h q limit now = Return res).
Proof.
  intros Hl.
  assert (Hzero : all_zero q \/ all_zero v -> cosine_similarity q v = Some NaN).
  { intros Hz. unfold cosine_similarity. rewrite np_dot_rdot by exact Hl.
    simpl. unfold np_div.
    assert (Hd : rdot q v = 0)
      by (destruct Hz; [apply rdot_zero_l | apply rdot_zero_r]; assumption).
    assert (Hn : np_norm q * np_norm v = 0).
    { destruct Hz as [Hz | Hz]; apply np_norm_zero in Hz; rewrite Hz; ring. }
    rewrite Hd, Hn. rdec. reflexivity. }
  split; [split; [| exact Hzero] | split].
  - unfold cosine_similarity. rewrite np_dot_rdot by exact Hl. simpl.
    unfold np_div.
    destruct (Req_EM_T (np_norm q * np_norm v) 0) as [H0 | H0];
      [| discriminate].
    intros _. apply Rmult_integral in H0 as [H0 | H0];
      [left | right]; apply np_norm_zero, H0.
  - intros Hz now m Hv. unfold total_score. rewrite Hv, (Hzero Hz).
    reflexivity.
  - intros h limit now Hwf. unfold retrieve_memories.
    destruct (memories h) as [| km ms] eqn:Hm; [eexists; reflexivity |].
    destruct (score_all_return q now (km :: ms) Hwf) as [l Hs].
    rewrite Hs. eexists. reflexivity.
Qed.

Lemma cosine_similarity_nan_iff_zero_witness :
  length [0; 0] = length [1; 0] /\
  cosine_similarity [0; 0] [1; 0] = Some NaN.
Proof.
  split; [reflexivity |].
  apply (cosine_similarity_nan_iff_zero [0; 0] [1; 0] eq_refl).
  left. repeat constructor.
Defined.

End HippocampusRetrieveFacts.

Module EmotionEngineExtra.
Import EmotionEngine EmotionEngineFacts.

Lemma abs_scale_le x f : 0 < f <= 1 -> Rabs (x * f) <= Rabs x.
Proof.
  intros Hf. rewrite Rabs_mult, (Rabs_right f) by lra.
  pose proof (Rabs_pos x). nra.
Qed.

Lemma abs_scale_gt x f : 1 < f -> x <> 0 -> Rabs x < Rabs (x * f).
Proof.
  intros Hf Hx. rewrite Rabs_mult, (Rabs_right f) by lra.
  pose proof (Rabs_pos_lt x Hx). nra.
Qed.

Lemma decay_factor_gt_1 dt h : dt < 0 -> 0 < h -> 1 < decay_factor dt h.
Proof.
  intros Hdt Hh. unfold decay_factor. rewrite <- exp_0.
  apply exp_increasing. pose proof ln2_pos as Hl.
  unfold Rdiv. apply Rmult_lt_0_compat; [nra | apply Rinv_0_lt_compat, Hh].
Qed.

Lemma py_clamp_mono lo hi x y : x <= y -> py_clamp lo hi x <= py_clamp lo hi y.
Proof. intros H. unfold py_clamp, Rmax, Rmin. rdec. Qed.

Lemma DBL_MAX_lt_exp : DBL_MAX < exp (1024 * ln 2).
Proof.
  assert (E : exp (1024 * ln 2) = 2 ^ 1024).
  { rewrite <- (Rpower_pow 1024 2) by lra. unfold Rpower.
    rewrite INR_IZR_INZ. reflexivity. }
  rewrite E. change (2 ^ 1024) with (2 ^ S 1023). rewrite <- tech_pow_Rmult.
  unfold DBL_MAX.
  assert (H1 : 0 < 2 ^ 1023) by (apply pow_lt; lra).
  assert (H2 : 0 < / 2 ^ 52) by (apply Rinv_0_lt_compat, pow_lt; lra).
  revert H1 H2. generalize (2 ^ 1023) (/ 2 ^ 52). intros b a Hb Ha. nra.
Qed.

(** [_apply_half_life_decay] with a non-negative elapsed time returns (no
    overflow) and never moves a value away from its baseline: PAD values
    shrink in magnitude towards 0, dopamine moves towards 0.5 and cortisol
    towards 0.3. *)
Theorem half_life_decay_toward_baseline (e : engine) (dt : R) :
  0 <= dt ->
  exists e', _apply_half_life_decay e dt = Return e' /\
  Rabs (pleasure e') <= Rabs (pleasure e) /\
  Rabs (arousal e') <= Rabs (arousal e) /\
  Rabs (dominance e') <= Rabs (dominance e) /\
  Rabs (dopamine e' - 0.5) <= Rabs (dopamine e - 0.5) /\
  Rabs (cortisol e' - 0.3) <= Rabs (cortisol e - 0.3).
Proof.
  intros Hdt. rewrite apply_decay_ok by (apply decay_ok_nonneg, Hdt).
  eexists; split; [reflexivity |]. cbn.
  unfold half_life_pleasure, half_life_arousal, half_life_dominance,
    half_life_dopamine, half_life_cortisol.
  replace (0.5 + (dopamine e - 0.5) * decay_factor dt 300 - 0.5)
    with ((dopamine e - 0.5) * decay_factor dt 300) by ring.
  replace (0.3 + (cortisol e - 0.3) * decay_factor dt 600 - 0.3)
    with ((cortisol e - 0.3) * decay_factor dt 600) by ring.
  repeat split; apply abs_scale_le, decay_factor_bounds; lra.
Qed.

Lemma half_life_decay_toward_baseline_witness :
  0 <= 60 /\
  exists e', _apply_half_life_decay (mkEngine 1 0 0 0.5 0.3 0) 60 = Return e' /\
  Rabs (pleasure e') <= Rabs (pleasure (mkEngine 1 0 0 0.5 0.3 0)).
Proof.
  split; [lra |].
  destruct (half_life_decay_toward_baseline (mkEngine 1 0 0 0.5 0.3 0) 60)
    as [e' [He [Hp _]]]; [lra |].
  exists e'. split; [exact He | exact Hp].
Defined.

(** When the clock goes backwards (a negative elapsed time) and the decay
    returns, the "decay" factors exceed 1: every value that is off its
    baseline moves further away from it. *)
Theorem half_life_decay_backward_clock (e e' : engine) (dt : R) :
  dt < 0 ->
  _apply_half_life_decay e dt = Return e' ->
  (pleasure e <> 0 -> Rabs (pleasure e) < Rabs (pleasure e')) /\
  (arousal e <> 0 -> Rabs (arousal e) < Rabs (arousal e')) /\
  (dominance e <> 0 -> Rabs (dominance e) < Rabs (dominance e')) /\
  (dopamine e <> 0.5 -> Rabs (dopamine e - 0.5) < Rabs (dopamine e' - 0.5)) /\
  (cortisol e <> 0.3 -> Rabs (cortisol e - 0.3) < Rabs (cortisol e' - 0.3)).
Proof.
  intros Hdt Hret.
  destruct (Rle_dec (decay_factor dt half_life_dopamine) DBL_MAX) as [Hok | Hov];
    [| rewrite apply_decay_raise in Hret by lra; discriminate].
  rewrite apply_decay_ok in Hret by exact Hok.
  injection Hret as <-. cbn.
  unfold half_life_pleasure, half_life_arousal, half_life_dominance,
    half_life_dopamine, half_life_cortisol.
  replace (0.5 + (dopamine e - 0.5) * decay_factor dt 300 - 0.5)
    with ((dopamine e - 0.5) * decay_factor dt 300) by ring.
  replace (0.3 + (cortisol e - 0.3) * decay_factor dt 600 - 0.3)
    with ((cortisol e - 0.3) * decay_factor dt 600) by ring.
  repeat split; intros Hne; apply abs_scale_gt;
    try (apply decay_factor_gt_1; lra); lra.
Qed.

Lemma decay_minus_60_ok : decay_factor (-60) half_life_dopamine <= DBL_MAX.
Proof.
  assert (H2 : 2 <= DBL_MAX).
  { unfold DBL_MAX.
    assert (H1023 : 2 ^ 1 <= 2 ^ 1023) by (apply Rle_pow; [lra | lia]).
    assert (Hi : / 2 ^ 52 <= / 1)
      by (apply Rinv_le_contravar; [lra | apply pow_R1_Rle; lra]).
    rewrite Rinv_1 in Hi. rewrite pow_1 in H1023.
    revert H1023 Hi. generalize (2 ^ 1023) (/ 2 ^ 52). intros b a Hb Ha.
    nra. }
  pose proof ln2_pos.
  unfold decay_factor, half_life_dopamine.
  apply Rle_trans with (exp (ln 2)); [| rewrite exp_ln; lra].
  apply exp_le_mono. lra.
Qed.

Lemma half_life_decay_backward_clock_witness :
  -60 < 0 /\
  Rabs (pleasure (mkEngine 0.5 0 0 0.5 0.3 0))
    < Rabs (0.5 * decay_factor (-60) half_life_pleasure).
Proof.
  split; [lra |].
  apply (half_life_decay_backward_clock (mkEngine 0.5 0 0 0.5 0.3 0)
           (mkEngine (0.5 * decay_factor (-60) half_life_pleasure)
              (0 * decay_factor (-60) half_life_arousal)
              (0 * decay_factor (-60) half_life_dominance)
              (0.5 + (0.5 - 0.5) * decay_factor (-60) half_life_dopamine)
              (0.3 + (0.3 - 0.3) * decay_factor (-60) half_life_cortisol) 0)
           (-60));
    [lra | | cbn; lra].
  rewrite apply_decay_ok by exact decay_minus_60_ok. reflexivity.
Defined.

(** [update] is monotone in its pleasure input: a larger [input_pleasure]
    never gives a lower pleasure nor a lower dopamine level. *)
Theorem update_monotone_pleasure_input (e : engine) (t ip1 ip2 ia id : R) :
  ip1 <= ip2 ->
  pleasure (fst (update e t ip1 ia id)) <= pleasure (fst (update e t ip2 ia id)) /\
  dopamine (fst (update e t ip1 ia id)) <= dopamine (fst (update e t ip2 ia id)).
Proof.
  intros Hle.
  destruct (Rle_dec (decay_factor (t - last_update_time e) half_life_dopamine)
              DBL_MAX) as [Hok | Hov].
  - rewrite !update_ok by exact Hok. cbn.
    split; apply py_clamp_mono; lra.
  - unfold update. cbv zeta.
    rewrite !apply_decay_raise by (cbn; lra). cbn. lra.
Qed.

Lemma update_monotone_pleasure_input_witness :
  0 <= 0.5 /\
  pleasure (fst (update (init 0) 10 0 0 0))
    <= pleasure (fst (update (init 0) 10 0.5 0 0)).
Proof.
  split; [lra |].
  apply (update_monotone_pleasure_input (init 0) 10 0 0.5 0 0). lra.
Defined.

(** [update] raises [OverflowError] exactly when the dopamine factor
    [2^(-dt/300)], the largest of the five, exceeds the largest float;
    the exception leaves the engine with its new [last_update_time] and
    all levels unchanged. Otherwise the call returns its new state. *)
Theorem update_overflow (e : engine) (t ip ia id : R) :
  (DBL_MAX < decay_factor (t - last_update_time e) half_life_dopamine ->
   update e t ip ia id =
     (mkEngine (pleasure e) (arousal e) (dominance e) (dopamine e)
        (cortisol e) t, Raise "OverflowError")) /\
  (decay_factor (t - last_update_time e) half_life_dopamine <= DBL_MAX ->
   exists e', update e t ip ia id = (e', Return e')).
Proof.
  split.
  - intros H. unfold update. cbv zeta.
    rewrite apply_decay_raise by exact H. reflexivity.
  - intros H. rewrite update_ok by exact H. eexists. reflexivity.
Qed.

Lemma update_overflow_witness :
  DBL_MAX < decay_factor (-1000000 - last_update_time (init 0))
              half_life_dopamine /\
  snd (update (init 0) (-1000000) 0 0 0) = Raise "OverflowError".
Proof.
  assert (H : DBL_MAX < decay_factor (-1000000 - last_update_time (init 0))
                          half_life_dopamine).
  { pose proof DBL_MAX_lt_exp. pose proof ln2_pos.
    unfold decay_factor, half_life_dopamine. cbn [last_update_time init].
    apply Rlt_trans with (exp (1024 * ln 2)); [lra |].
    apply exp_increasing. lra. }
  split; [exact H |].
  rewrite (proj1 (update_overflow (init 0) (-1000000) 0 0 0) H).
  reflexivity.
Defined.

End EmotionEngineExtra.

Module HippocampusExtra.
Import Hippocampus RetrievalSpec SortFacts RankFacts HippocampusRetrieveFacts.

(** A [store_memory] call that raises (no ["vector"]) still consumes an
    id: the store's records are unchanged, and the next successful call
    returns the id after the one the failed call would have used. *)
Theorem store_memory_failure_consumes_id (h : file_hippocampus)
    (em1 em2 : memory) (t1 t2 : R) (v : list R) :
  vector em1 = None -> vector em2 = Some v ->
  snd (store_memory h em1 t1) = Raise "ValueError" /\
  memories (fst (store_memory h em1 t1)) = memories h /\
  snd (store_memory (fst (store_memory h em1 t1)) em2 t2)
    = Return (pretty (next_id h + 1)%Z) /\
  pretty (next_id h + 1)%Z <> pretty (next_id h).
Proof.
  intros H1 H2. unfold store_memory. rewrite H1. cbn. rewrite H2.
  repeat split; try reflexivity.
  intros E. apply (inj pretty) in E. lia.
Qed.

Lemma store_memory_failure_consumes_id_witness :
  vector (mkMemory None None None None) = None /\
  vector (mkMemory (Some [1]) None None None) = Some [1] /\
  snd (store_memory (fst (store_memory empty_store
                             (mkMemory None None None None) 0))
         (mkMemory (Some [1]) None None None) 0)
    = Return (pretty 1%Z).
Proof.
  split; [reflexivity |]. split; [reflexivity |].
  apply (store_memory_failure_consumes_id empty_store
           (mkMemory None None None None) (mkMemory (Some [1]) None None None)
           0 0 [1]); reflexivity.
Defined.

Lemma np_dot_none a b : length a <> length b -> np_dot a b = None.
Proof.
  revert b. induction a as [| x a IH]; intros [| y b] Hl; simpl in *;
    try reflexivity; [lia |].
  rewrite IH by lia. reflexivity.
Qed.

Lemma score_all_mismatch q now ms :
  (forall k m, In (k, m) ms -> vector m <> None) ->
  (exists k m v, In (k, m) ms /\ vector m = Some v /\ length v <> length q) ->
  score_all q now ms = Raise "ValueError".
Proof.
  induction ms as [| [k0 m0] ms IH]; intros Hv [k [m [v [Hin [Hm Hl]]]]];
    [destruct Hin |].
  simpl. unfold total_score at 1.
  destruct (vector m0) as [v0 |] eqn:Hv0;
    [| exfalso; apply (Hv k0 m0); [left; reflexivity | exact Hv0]].
  unfold cosine_similarity at 1.
  destruct (Nat.eq_dec (length q) (length v0)) as [Heq | Hne].
  - rewrite np_dot_rdot by exact Heq. cbn [option_map].
    rewrite IH; [reflexivity | |].
    + intros k' m' Hin'. apply (Hv k' m'). right. exact Hin'.
    + destruct Hin as [Hkm | Hin].
      * injection Hkm as -> ->. rewrite Hv0 in Hm. injection Hm as ->. lia.
      * exists k, m, v. auto.
  - rewrite np_dot_none by exact Hne. reflexivity.
Qed.

(** One stored record whose vector has a different dimension from the
    query makes the whole [retrieve_memories] call raise [ValueError]
    (np.dot), whatever the other records are. *)
Theorem retrieve_memories_dimension_mismatch (h : file_hippocampus)
    (q : list R) (limit : Z) (now : R) (k : string) (m : memory) (v : list R) :
  (forall k' m', In (k', m') (memories h) -> vector m' <> None) ->
  In (k, m) (memories h) -> vector m = Some v -> length v <> length q ->
  retrieve_memories h q limit now = Raise "ValueError".
Proof.
  intros Hv Hin Hm Hl. unfold retrieve_memories.
  destruct (memories h) as [| km ms] eqn:Hms; [destruct Hin |].
  rewrite (score_all_mismatch q now (km :: ms) Hv); [reflexivity |].
  exists k, m, v. auto.
Qed.

Lemma retrieve_memories_dimension_mismatch_witness :
  let m := mkMemory (Some [1; 0]) None (Some 0) None in
  let h := mkHippocampus [("0"%string, m)] 1 in
  (forall k' m', In (k', m') (memories h) -> vector m' <> None) /\
  In ("0"%string, m) (memories h) /\ vector m = Some [1; 0] /\
  length [1; 0] <> length [1; 1; 1] /\
  retrieve_memories h [1; 1; 1] 5 0 = Raise "ValueError".
Proof.
  intros m h.
  assert (Hv : forall k' m', In (k', m') (memories h) -> vector m' <> None).
  { intros k' m' [Hkm | []]. injection Hkm as _ <-. discriminate. }
  assert (Hin : In ("0"%string, m) (memories h)) by (left; reflexivity).
  split; [exact Hv |]. split; [exact Hin |]. split; [reflexivity |].
  split; [simpl; lia |].
  apply (retrieve_memories_dimension_mismatch h [1; 1; 1] 5 0 "0" m [1; 0]
           Hv Hin eq_refl). simpl. lia.
Defined.

(** The importance of a record is in (0, 1] when its timestamp is not in
    the future and its affect snapshot lies in [-1, 1]^3. *)
Theorem importance_score_bounds (now : R) (m : memory) :
  (forall ts, timestamp m = Some ts -> ts <= now) ->
  (forall p, pad m = Some p ->
     -1 <= pad_pleasure p <= 1 /\ -1 <= pad_arousal p <= 1 /\
     -1 <= pad_dominance p <= 1) ->
  0 < importance_score now m <= 1.
Proof.
  intros Hts Hpad. unfold importance_score.
  set (dt := now - default now (timestamp m)).
  assert (Hdt : 0 <= dt).
  { subst dt. destruct (timestamp m) as [ts |] eqn:E; cbn.
    - specialize (Hts ts eq_refl). lra.
    - lra. }
  pose proof (EmotionEngineFacts.decay_factor_bounds dt (24 * 3600) Hdt
                ltac:(lra)) as Hd.
  unfold EmotionEngine.decay_factor in Hd.
  assert (Hi : 0 <= (Rabs (pad_pleasure (default empty_pad (pad m)))
                     + Rabs (pad_arousal (default empty_pad (pad m)))
                     + Rabs (pad_dominance (default empty_pad (pad m)))) / 3
               <= 1).
  { destruct (pad m) as [p |] eqn:E; cbn.
    - destruct (Hpad p eq_refl) as [Hp [Ha Hdm]].
      pose proof (Rabs_pos (pad_pleasure p)).
      pose proof (Rabs_pos (pad_arousal p)).
      pose proof (Rabs_pos (pad_dominance p)).
      assert (Rabs (pad_pleasure p) <= 1) by (apply Rabs_le; lra).
      assert (Rabs (pad_arousal p) <= 1) by (apply Rabs_le; lra).
      assert (Rabs (pad_dominance p) <= 1) by (apply Rabs_le; lra).
      split; lra.
    - unfold pad_pleasure, pad_arousal, pad_dominance. cbn.
      rewrite Rabs_R0. split; lra. }
  destruct (user_info m) as [keys |]; [destruct (decide _) |]; split; lra.
Qed.

Lemma importance_score_bounds_witness :
  let m := mkMemory (Some [1]) (Some (mkPad 0.5 (-0.5) 1)) (Some 0) None in
  (forall ts, timestamp m = Some ts -> ts <= 100) /\
  (forall p, pad m = Some p ->
     -1 <= pad_pleasure p <= 1 /\ -1 <= pad_arousal p <= 1 /\
     -1 <= pad_dominance p <= 1) /\
  0 < importance_score 100 m <= 1.
Proof.
  intros m.
  assert (H1 : forall ts, timestamp m = Some ts -> ts <= 100).
  { intros ts E. injection E as <-. lra. }
  assert (H2 : forall p, pad m = Some p ->
     -1 <= pad_pleasure p <= 1 /\ -1 <= pad_arousal p <= 1 /\
     -1 <= pad_dominance p <= 1).
  { intros p E. injection E as <-. cbn. lra. }
  split; [exact H1 |]. split; [exact H2 |].
  apply (importance_score_bounds 100 m H1 H2).
Defined.

(** All else equal, a more recent record is at least as important:
    importance does not decrease as the timestamp increases. *)
Theorem importance_score_recency (now : R) (m : memory) (t1 t2 : R) :
  t1 <= t2 ->
  importance_score now (set_timestamp m t1)
    <= importance_score now (set_timestamp m t2).
Proof.
  intros Ht. unfold importance_score, set_timestamp. cbn.
  pose proof EmotionEngineFacts.ln2_pos as Hl.
  assert (Hx : - ln 2 * (now - t1) / (24 * 3600)
               <= - ln 2 * (now - t2) / (24 * 3600)).
  { unfold Rdiv. apply Rmult_le_compat_r; [lra | nra]. }
  assert (Hexp : exp (- ln 2 * (now - t1) / (24 * 3600))
                 <= exp (- ln 2 * (now - t2) / (24 * 3600))).
  { destruct (Rle_lt_or_eq_dec _ _ Hx) as [Hlt | Heq].
    - left. apply exp_increasing, Hlt.
    - rewrite Heq. lra. }
  lra.
Qed.

Lemma importance_score_recency_witness :
  0 <= 3600 /\
  importance_score 7200 (set_timestamp (mkMemory (Some [1]) None None None) 0)
    <= importance_score 7200
         (set_timestamp (mkMemory (Some [1]) None None None) 3600).
Proof.
  split; [lra |].
  apply (importance_score_recency 7200 (mkMemory (Some [1]) None None None)
           0 3600). lra.
Defined.

Lemma cosine_similarity_fin q v :
  length v = length q -> nonzero q -> nonzero v ->
  cosine_similarity q v = Some (Fin (rdot q v / (np_norm q * np_norm v))).
Proof.
  intros Hl Hq Hv. unfold cosine_similarity.
  rewrite np_dot_rdot by lia. cbn [option_map]. unfold np_div.
  pose proof (np_norm_pos q Hq) as Hpq. pose proof (np_norm_pos v Hv) as Hpv.
  destruct (Req_EM_T (np_norm q * np_norm v) 0) as [H0 | H0]; [nra |].
  reflexivity.
Qed.

Lemma similarities_map q ms :
  nonzero q -> well_formed_query q ms ->
  MockHippocampus.similarities q ms
    = Return (map (fun km =>
        (Fin (rdot q (default [] (vector (snd km)))
              / (np_norm q * np_norm (default [] (vector (snd km))))),
         snd km)) ms).
Proof.
  intros Hq. induction ms as [| [k m] ms IH]; intros Hwf; simpl;
    [reflexivity |].
  destruct (Hwf k m (or_introl eq_refl)) as [v [Hv [Hl Hnv]]].
  rewrite Hv, (cosine_similarity_fin q v Hl Hq Hnv). cbn.
  rewrite IH; [reflexivity |].
  intros k' m' Hin. apply (Hwf k' m'). right. exact Hin.
Qed.

(** [MockHippocampus.retrieve_memories] with a limit >= 0, a non-zero
    query and non-zero record vectors of the query's dimension returns the
    first [limit] records of the ranking [rank_desc] by cosine similarity
    alone: descending similarity, insertion order among equal ones. *)
Theorem mock_retrieve_memories_ranking (ms : list (string * memory))
    (q : list R) (limit : Z) :
  (0 <= limit)%Z -> nonzero q -> well_formed_query q ms ->
  let scored := map (fun km =>
        (rdot q (default [] (vector (snd km)))
           / (np_norm q * np_norm (default [] (vector (snd km)))),
         snd km)) ms in
  let ranked := rank_desc scored in
  MockHippocampus.retrieve_memories ms q limit
    = Return (map snd (firstn (Z.to_nat limit) ranked)) /\
  Permutation ranked scored /\
  StronglySorted (fun a b => fst b <= fst a) ranked /\
  (forall r, List.filter (score_is r) ranked
             = List.filter (score_is r) scored).
Proof.
  intros Hlim Hq Hwf scored ranked.
  split; [| split; [| split]].
  - unfold MockHippocampus.retrieve_memories.
    destruct ms as [| km ms'].
    + unfold ranked, scored. cbn. rewrite firstn_nil. reflexivity.
    + rewrite similarities_map by assumption.
      assert (Hm : map (fun km0 : string * memory =>
        (Fin (rdot q (default [] (vector (snd km0)))
              / (np_norm q * np_norm (default [] (vector (snd km0))))),
         snd km0)) (km :: ms') = map (fun e => (Fin (fst e), snd e)) scored).
      { unfold scored. rewrite map_map. reflexivity. }
      rewrite Hm.
      rewrite (py_sort_reverse_map (fun e : R * memory => Fin (fst e)) fst
                 (fun e => (Fin (fst e), snd e))) by reflexivity.
      rewrite py_sort_reverse_rank_desc.
      unfold py_slice_prefix. destruct (Z.leb_spec 0 limit); [| lia].
      rewrite firstn_map, map_map. reflexivity.
  - apply rank_desc_perm.
  - apply rank_desc_sorted.
  - intros r. apply rank_desc_stable.
Qed.

Lemma mock_retrieve_memories_ranking_witness :
  let mB := mkMemory (Some [0; 1]) None None None in
  let mA1 := mkMemory (Some [1; 0]) None None None in
  let mA2 := mkMemory (Some [2; 0]) None None None in
  let ms := [("0", mB); ("1", mA1); ("2", mA2)]%string in
  (0 <= 3)%Z /\ nonzero [1; 0] /\ well_formed_query [1; 0] ms /\
  MockHippocampus.retrieve_memories ms [1; 0] 3 = Return [mA1; mA2; mB].
Proof.
  intros mB mA1 mA2 ms.
  assert (Hq : nonzero [1; 0]) by (constructor; lra).
  assert (Hwf : well_formed_query [1; 0] ms).
  { intros k m [Hkm | [Hkm | [Hkm | []]]]; injection Hkm as _ <-;
      [exists [0; 1] | exists [1; 0] | exists [2; 0]];
      (split; [reflexivity | split; [reflexivity |]]);
      [right; left | left | left]; lra. }
  split; [lia |]. split; [exact Hq |]. split; [exact Hwf |].
  destruct (mock_retrieve_memories_ranking ms [1; 0] 3 ltac:(lia) Hq Hwf)
    as [Hr _].
  rewrite Hr. unfold ms, mB, mA1, mA2. cbn [map snd default vector Datatypes.id].
  rewrite sqrt_sum_sq_10, sqrt_sum_sq_01, sqrt_sum_sq_20. cbn [rdot].
  replace ((1 * 0 + (0 * 1 + 0)) / (1 * 1)) with 0
    by (replace (1 * 1) with 1 by ring; unfold Rdiv; rewrite Rinv_1; lra).
  replace ((1 * 1 + (0 * 0 + 0)) / (1 * 1)) with 1
    by (replace (1 * 1) with 1 by ring; unfold Rdiv; rewrite Rinv_1; lra).
  replace ((1 * 2 + (0 * 0 + 0)) / (1 * 2)) with 1
    by (replace (1 * 2) with 2 by ring;
        replace (2 + (0 * 0 + 0)) with 2 by ring;
        unfold Rdiv; rewrite Rinv_r by lra; lra).
  unfold rank_desc. cbn [fold_right insert_desc fst].
  rdec. cbn [insert_desc fst]. rdec. reflexivity.
Defined.

End HippocampusExtra.

Module PathologyExtra.
Import Hippocampus Pathology DepressionSpec DepressionFacts.

(** [_calculate_dynamic_severity] with a base severity in [0, 1] lies
    between the base severity and 1, equals the base severity while
    cortisol is at most 0.4, and does not decrease as cortisol rises. *)
Theorem calculate_dynamic_severity_range (base : R) (es : emotional_state) :
  0 <= base <= 1 ->
  base <= _calculate_dynamic_severity base es <= 1 /\
  (es_cortisol es <= 0.4 -> _calculate_dynamic_severity base es = base) /\
  (forall es', es_cortisol es <= es_cortisol es' ->
     _calculate_dynamic_severity base es
       <= _calculate_dynamic_severity base es').
Proof.
  intros Hb. unfold _calculate_dynamic_severity, Rmin, Rmax.
  split; [| split]; [rdec | intros Hc; rdec |].
  intros es' Hc. rdec.
Qed.

Lemma calculate_dynamic_severity_range_witness :
  0 <= 0.3 <= 1 /\
  0.3 <= _calculate_dynamic_severity 0.3 (mkEmotional 0 0 0 0.5 0.9 0) <= 1.
Proof.
  split; [lra |].
  apply (calculate_dynamic_severity_range 0.3 (mkEmotional 0 0 0 0.5 0.9 0)).
  lra.
Defined.

Lemma scaled_1 m : pad_lacks_pleasure m = false -> scaled 1 m = m.
Proof.
  unfold scaled, set_pad, pad_lacks_pleasure, pad_pleasure.
  destruct m as [v [[[x |] a d] |] ts ui]; cbn; try congruence.
  rewrite Rmult_1_r. reflexivity.
Qed.

Lemma kept_memories_zero rng n ms :
  (forall k, 0 <= rng k) -> kept_memories 0 rng n ms = ms.
Proof.
  intros Hr. revert n. induction ms as [| m ms IH]; intros n; [reflexivity |].
  simpl. destruct (high_pleasure m); [destruct (Rlt_dec _ _) as [Hlt | _] |].
  - specialize (Hr n). lra.
  - rewrite IH. reflexivity.
  - rewrite IH. reflexivity.
Qed.

(** With a dynamic severity of 0 (base severity 0 and cortisol at most
    0.4) [DepressionPathology.distort_memories] returns the memories
    unchanged when every ["pad"] has a ["pleasure"] key: nothing is
    dropped and every pleasure is multiplied by 1. *)
Theorem depression_zero_severity_identity (base : R) (ms : list memory)
    (es : emotional_state) (rng : rng_t) (n : nat) :
  _calculate_dynamic_severity base es = 0 -> (forall k, 0 <= rng k) ->
  Forall (fun m => pad_lacks_pleasure m = false) ms ->
  fst (depression_distort_memories base ms es rng n) = Return ms.
Proof.
  intros Hs Hr Hf. unfold depression_distort_memories.
  destruct ms as [| m ms']; [reflexivity |].
  rewrite Hs, depression_loop_kept by exact Hf. cbn [fst].
  rewrite kept_memories_zero by exact Hr.
  replace (1 - 0.8 * 0) with 1 by ring. f_equal.
  rewrite <- (map_id (m :: ms')) at 2. apply map_ext_in.
  intros x Hx. rewrite List.Forall_forall in Hf. apply scaled_1, Hf, Hx.
Qed.

Lemma depression_zero_severity_identity_witness :
  let ms := [mkMemory (Some [1]) (Some (mkPad 0.9 0 0)) (Some 0) None;
             mkMemory (Some [0]) None None None] in
  _calculate_dynamic_severity 0 (mkEmotional 0 0 0 0.5 0.3 0) = 0 /\
  (forall k : nat, 0 <= (fun _ => 0.5) k) /\
  Forall (fun m => pad_lacks_pleasure m = false) ms /\
  fst (depression_distort_memories 0 ms (mkEmotional 0 0 0 0.5 0.3 0)
         (fun _ => 0.5) 0) = Return ms.
Proof.
  intros ms.
  assert (Hs : _calculate_dynamic_severity 0 (mkEmotional 0 0 0 0.5 0.3 0) = 0).
  { unfold _calculate_dynamic_severity, Rmin, Rmax. cbn. rdec. }
  assert (Hr : forall k : nat, 0 <= (fun _ => 0.5) k) by (intros; lra).
  assert (Hf : Forall (fun m => pad_lacks_pleasure m = false) ms)
    by (repeat constructor).
  split; [exact Hs |]. split; [exact Hr |]. split; [exact Hf |].
  apply (depression_zero_severity_identity 0 ms _ (fun _ => 0.5) 0 Hs Hr Hf).
Defined.

End PathologyExtra.

Module AlzheimerExtra.
Import Hippocampus Pathology Alzheimer.

Lemma week_old_young t m :
  t - default 0 (timestamp m) < 604800 -> week_old t m = false.
Proof.
  intros H. unfold week_old.
  destruct (Rlt_dec _ _); [reflexivity | contradiction].
Qed.

Lemma week_old_old t m :
  ~ t - default 0 (timestamp m) < 604800 -> week_old t m = true.
Proof.
  intros H. unfold week_old.
  destruct (Rlt_dec _ _); [contradiction | reflexivity].
Qed.

Lemma alzheimer_loop_spec sev t rng ms : forall n,
  fst (alzheimer_loop sev t rng n ms) `sublist_of` ms /\
  List.filter (week_old t) (fst (alzheimer_loop sev t rng n ms))
    = List.filter (week_old t) ms /\
  snd (alzheimer_loop sev t rng n ms)
    = (n + length (List.filter (fun m => negb (week_old t m)) ms))%nat.
Proof.
  induction ms as [| m ms IH]; intros n.
  - cbn. split; [constructor | split; [reflexivity | lia]].
  - cbn [alzheimer_loop].
    destruct (Rlt_dec (t - default 0 (timestamp m)) 86400) as [H1 | H1].
    + assert (Hw : week_old t m = false) by (apply week_old_young; lra).
      cbn [List.filter]. rewrite Hw. cbn [negb length].
      destruct (Rlt_dec (rng n) (0.8 * sev)).
      * destruct (IH (S n)) as [A [B C]].
        split; [apply sublist_cons, A | split; [exact B | rewrite C; lia]].
      * destruct (alzheimer_loop sev t rng (S n) ms) as [out n'] eqn:E.
        destruct (IH (S n)) as [A [B C]]. rewrite E in A, B, C. cbn in *.
        rewrite Hw.
        split; [apply sublist_skip, A | split; [exact B | rewrite C; lia]].
    + destruct (Rlt_dec (t - default 0 (timestamp m)) 604800) as [H2 | H2].
      * assert (Hw : week_old t m = false) by (apply week_old_young; lra).
        cbn [List.filter]. rewrite Hw. cbn [negb length].
        destruct (Rlt_dec (rng n) (0.5 * sev)).
        -- destruct (IH (S n)) as [A [B C]].
           split; [apply sublist_cons, A | split; [exact B | rewrite C; lia]].
        -- destruct (alzheimer_loop sev t rng (S n) ms) as [out n'] eqn:E.
           destruct (IH (S n)) as [A [B C]]. rewrite E in A, B, C. cbn in *.
           rewrite Hw.
           split; [apply sublist_skip, A | split; [exact B | rewrite C; lia]].
      * assert (Hw : week_old t m = true) by (apply week_old_old; exact H2).
        cbn [List.filter]. rewrite Hw. cbn [negb].
        destruct (alzheimer_loop sev t rng n ms) as [out n'] eqn:E.
        destruct (IH n) as [A [B C]]. rewrite E in A, B, C. cbn in *.
        rewrite Hw.
        split; [apply sublist_skip, A | split; [congruence | exact C]].
Qed.

(** [AlzheimerPathology.distort_memories] only removes memories: the
    result is a subsequence of the input, every memory stored a week or
    more before the state's timestamp is kept, and one random number is
    drawn per memory younger than a week (none for the older ones). *)
Theorem alzheimer_distort_memories_spec (severity : R) (ms : list memory)
    (es : emotional_state) (rng : rng_t) (n : nat) :
  let r := distort_memories severity ms es rng n in
  fst r `sublist_of` ms /\
  List.filter (week_old (es_timestamp es)) (fst r)
    = List.filter (week_old (es_timestamp es)) ms /\
  snd r = (n + length (List.filter
             (fun m => negb (week_old (es_timestamp es) m)) ms))%nat.
Proof. intros r. apply alzheimer_loop_spec. Qed.

End AlzheimerExtra.

Module MotorCortexExtra.
Import MotorCortex SegmentSpec ArticulationSpec ArticulationFacts.

Lemma is_prefix_incl p s : is_prefix p s = true -> forall c, In c p -> In c s.
Proof.
  revert s. induction p as [| a p IH]; intros s H c Hc; [destruct Hc |].
  destruct s as [| b s]; [discriminate |]. cbn in H.
  apply andb_true_iff in H as [Hab Hp]. apply Z.eqb_eq in Hab. subst b.
  destruct Hc as [-> | Hc]; [left; reflexivity | right; exact (IH s Hp c Hc)].
Qed.

Lemma py_str_in_incl needle hay :
  py_str_in needle hay = true -> forall c, In c needle -> In c hay.
Proof.
  induction hay as [| h hay IH]; intros H c Hc; simpl in H.
  - apply orb_true_iff in H as [H | H]; [| discriminate].
    exact (is_prefix_incl _ _ H c Hc).
  - apply orb_true_iff in H as [H | H].
    + exact (is_prefix_incl _ _ H c Hc).
    + right. exact (IH H c Hc).
Qed.

Lemma mark_in_marks c : In c sentence_marks -> is_sentence_mark c = true.
Proof.
  unfold sentence_marks. intros [<- | [<- | [<- | []]]]; reflexivity.
Qed.

Lemma mark_not_space c : is_sentence_mark c = true -> is_space c = false.
Proof.
  unfold is_sentence_mark, ideographic_full_stop, fullwidth_exclamation,
    fullwidth_question.
  intros H. repeat (apply orb_true_iff in H as [H | H]);
    apply Z.eqb_eq in H; subst c; reflexivity.
Qed.

Lemma lstrip_head s c r : lstrip s = c :: r -> is_space c = false.
Proof.
  induction s as [| a s IH]; simpl; [discriminate |].
  destruct (is_space a) eqn:E; [exact IH |]. intros H. injection H as -> _.
  exact E.
Qed.

Lemma lstrip_incl s c : In c (lstrip s) -> In c s.
Proof.
  induction s as [| a s IH]; simpl; [tauto |].
  destruct (is_space a); [intros H; right; exact (IH H) | tauto].
Qed.

Lemma strip_nonblank s :
  strip s <> [] -> Exists (fun c => is_space c = false) s.
Proof.
  unfold strip. intros H.
  destruct (lstrip (rev (lstrip s))) as [| c r] eqn:E; [contradiction |].
  apply List.Exists_exists. exists c. split.
  - apply lstrip_incl. apply in_rev. apply lstrip_incl. rewrite E.
    left; reflexivity.
  - exact (lstrip_head _ _ _ E).
Qed.

Lemma strip_own_nonblank s :
  strip s <> [] -> Exists (fun c => is_space c = false) (strip s).
Proof.
  unfold strip. intros H.
  destruct (lstrip (rev (lstrip s))) as [| c r] eqn:E; [contradiction |].
  apply List.Exists_exists. exists c. split.
  - apply in_rev. rewrite rev_involutive. left; reflexivity.
  - exact (lstrip_head _ _ _ E).
Qed.

Lemma ends_with_mark_nonblank s :
  ends_with_mark s = true -> Exists (fun c => is_space c = false) s.
Proof.
  unfold ends_with_mark. destruct (rev s) as [| c r] eqn:E; [discriminate |].
  intros H. apply List.Exists_exists. exists c. split.
  - apply in_rev. rewrite E. left; reflexivity.
  - apply mark_not_space, H.
Qed.

Lemma ends_with_mark_app buf seg :
  seg <> [] -> py_str_in seg sentence_marks = true ->
  ends_with_mark (buf ++ seg) = true.
Proof.
  intros Hne Hin. unfold ends_with_mark. rewrite rev_app_distr.
  destruct (rev seg) as [| c r] eqn:E.
  - exfalso. apply Hne. rewrite <- (rev_involutive seg), E. reflexivity.
  - cbn. apply mark_in_marks. apply (py_str_in_incl _ _ Hin).
    apply in_rev. rewrite E. left; reflexivity.
Qed.

Lemma segment_loop_bubbles mc mult segs : forall bubbles buf,
  Forall (fun s => s <> []) segs ->
  Forall (fun s => ends_with_mark s = true /\
                   min_segment_length mc * mult <= INR (length s)) bubbles ->
  Forall (fun s => ends_with_mark s = true /\
                   min_segment_length mc * mult <= INR (length s))
    (fst (segment_loop mc mult segs bubbles buf)).
Proof.
  induction segs as [| seg segs IH]; intros bubbles buf Hs Hb; [exact Hb |].
  inversion Hs as [| ? ? Hseg Hrest]; subst. cbn [segment_loop].
  destruct (py_str_in seg sentence_marks) eqn:Hin; [| apply IH; assumption].
  destruct (Rle_dec _ _) as [Hle | _]; [| apply IH; assumption].
  apply IH; [exact Hrest |]. apply Forall_app. split; [exact Hb |].
  constructor; [| constructor]. split; [| exact Hle].
  apply ends_with_mark_app; assumption.
Qed.

Lemma Forall_removelast {A} (P : A -> Prop) l :
  Forall P l -> Forall P (removelast l).
Proof.
  induction l as [| a l IH]; intros H; [constructor |].
  inversion H as [| ? ? Ha Hl]; subst.
  destruct l as [| b l]; [constructor | cbn; constructor; [exact Ha | ]].
  apply IH, Hl.
Qed.

(** [_segment_text] never returns a blank segment, and every segment but
    the last ends with one of [。！？] and has at least
    [min_segment_length * segment_multiplier] characters. *)
Theorem segment_text_shape (mc : motor_cortex) (t : text) (ps : pad_state) :
  let segs := _segment_text mc t ps in
  Forall (Exists (fun c => is_space c = false)) segs /\
  Forall (fun s => ends_with_mark s = true /\
                   min_segment_length mc * segment_multiplier ps
                     <= INR (length s))
    (removelast segs).
Proof.
  intros segs. subst segs. unfold _segment_text.
  set (segs0 := List.filter (fun s => negb (bool_decide (strip s = [])))
                  (re_split t)).
  assert (Hne : Forall (fun s => s <> []) segs0).
  { apply List.Forall_forall. intros s Hs. apply filter_In in Hs as [_ Hs].
    intros ->. cbn in Hs. discriminate. }
  pose proof (segment_loop_bubbles mc (segment_multiplier ps) segs0 [] []
                Hne (List.Forall_nil _)) as Hb.
  destruct (segment_loop mc (segment_multiplier ps) segs0 [] [])
    as [bs cb] eqn:E. cbn [fst] in Hb.
  assert (Hbs : Forall (Exists (fun c => is_space c = false)) bs).
  { apply List.Forall_forall. intros s Hs.
    apply ends_with_mark_nonblank.
    exact (proj1 (proj1 (List.Forall_forall _ _) Hb s Hs)). }
  destruct (bool_decide (strip cb = [])) eqn:Hcb.
  - destruct bs as [| b bs'].
    + destruct (bool_decide (strip t = [])) eqn:Ht; [split; constructor |].
      apply bool_decide_eq_false in Ht.
      split; [constructor; [apply strip_own_nonblank, Ht | constructor] |].
      constructor.
    + split; [exact Hbs | apply Forall_removelast, Hb].
  - apply bool_decide_eq_false in Hcb.
    assert (Hres : match bs ++ [cb] with
                   | [] => if bool_decide (strip t = []) then [] else [strip t]
                   | _ => bs ++ [cb]
                   end = bs ++ [cb]) by (destruct bs; reflexivity).
    rewrite Hres, removelast_last. split; [| exact Hb].
    apply Forall_app. split; [exact Hbs |].
    constructor; [apply strip_nonblank, Hcb | constructor].
Qed.

(** With [base_wpm > 0] and a draw in [0, 1], the typing delay of a
    segment of [L] characters lies between [5.4 * L / base_wpm] and
    [26.4 * L / base_wpm] seconds (speed modifier clamped to [0.5, 2],
    noise in [0.9, 1.1]); with the default 60 wpm, between 0.09 s and
    0.44 s per character. *)
Theorem typing_delay_bounds (mc : motor_cortex) (L : nat) (ps : pad_state)
    (rng : rng_t) (n : nat) :
  0 < base_wpm mc -> 0 <= rng n <= 1 ->
  5.4 * INR L / base_wpm mc <= _calculate_typing_delay mc L ps rng n
    <= 26.4 * INR L / base_wpm mc.
Proof.
  intros Hw Hr. unfold _calculate_typing_delay, uniform.
  set (sm := py_clamp 0.5 2 _).
  assert (Hs : 0.5 <= sm <= 2) by (apply py_clamp_range; lra).
  set (a := INR L / base_wpm mc).
  assert (Ha : 0 <= a).
  { unfold a, Rdiv. apply Rmult_le_pos; [apply pos_INR |].
    left. apply Rinv_0_lt_compat, Hw. }
  set (k := 12 / sm).
  assert (Hk : k * sm = 12) by (unfold k; field; lra).
  assert (Hk6 : 6 <= k <= 24) by nra.
  replace (1.1 - 0.9) with 0.2 by lra.
  replace (INR L / (base_wpm mc * sm * 5 / 60) * (0.9 + 0.2 * rng n))
    with (a * (k * (0.9 + 0.2 * rng n))) by (unfold a, k; field; split; lra).
  replace (5.4 * INR L / base_wpm mc) with (a * 5.4) by (unfold a; field; lra).
  replace (26.4 * INR L / base_wpm mc) with (a * 26.4)
    by (unfold a; field; lra).
  split; apply Rmult_le_compat_l; nra.
Qed.

Lemma typing_delay_bounds_witness :
  0 < base_wpm default_motor_cortex /\ 0 <= (fun _ : nat => 0.5) 0%nat <= 1 /\
  5.4 * INR 10 / 60
    <= _calculate_typing_delay default_motor_cortex 10
         (mkPadState 0 0 0 0.5 0.3) (fun _ => 0.5) 0.
Proof.
  split; [cbn; lra |]. split; [lra |].
  apply (typing_delay_bounds default_motor_cortex 10 (mkPadState 0 0 0 0.5 0.3)
           (fun _ => 0.5) 0); cbn; lra.
Defined.

(** For a non-negative [hesitation_base] and dominance and arousal in
    [-1, 1], higher dominance or higher arousal never lengthens the pause
    between segments. *)
Theorem hesitation_antitone (mc : motor_cortex) (d1 d2 a1 a2 : R) :
  0 <= hesitation_base mc -> -1 <= d1 -> d1 <= d2 -> d2 <= 1 ->
  -1 <= a1 -> a1 <= a2 -> a2 <= 1 ->
  _calculate_hesitation mc d2 a2 <= _calculate_hesitation mc d1 a1.
Proof.
  intros Hb Hd1 Hd Hd2 Ha1 Ha Ha2. unfold _calculate_hesitation.
  apply EmotionEngineExtra.py_clamp_mono.
  assert (0.5 <= 1 - d2 * 0.5 <= 1 - d1 * 0.5) by lra.
  assert (0.7 <= 1 - a2 * 0.3 <= 1 - a1 * 0.3) by lra.
  apply Rmult_le_compat; [| lra | apply Rmult_le_compat_l; lra | lra].
  apply Rmult_le_pos; lra.
Qed.

Lemma hesitation_antitone_witness :
  0 <= hesitation_base default_motor_cortex /\
  _calculate_hesitation default_motor_cortex 0.5 0.5
    <= _calculate_hesitation default_motor_cortex (-0.5) 0.
Proof.
  split; [cbn; lra |].
  apply (hesitation_antitone default_motor_cortex (-0.5) 0.5 0 0.5);
    cbn; lra.
Defined.

(** [articulate] draws one random number per segment, two when cortisol
    exceeds 0.7 (the extra hesitation), and no other. *)
Theorem articulate_draws (mc : motor_cortex) (t : text) (ps : pad_state)
    (rng : rng_t) (n : nat) :
  snd (articulate mc t ps rng n)
    = (n + (if Rlt_dec 0.7 (ps_cortisol ps) then 2 else 1)
             * length (_segment_text mc t ps))%nat.
Proof.
  unfold articulate. rewrite articulate_loop_stream. reflexivity.
Qed.

End MotorCortexExtra.

Module ActionEventExtra.
Import ActionEvent.

Lemma of_value_value t : of_value (value t) = Return t.
Proof. destruct t; reflexivity. Qed.

Lemma of_value_inv v t : of_value v = Return t -> v = value t.
Proof.
  unfold of_value.
  destruct (String.eqb_spec v "typing"); [intros H; injection H as <-; exact e |].
  destruct (String.eqb_spec v "message"); [intros H; injection H as <-; exact e |].
  destruct (String.eqb_spec v "wait"); [intros H; injection H as <-; exact e |].
  destruct (String.eqb_spec v "thinking"); [intros H; injection H as <-; exact e |].
  discriminate.
Qed.

Lemma of_value_raise v exn :
  of_value v = Raise exn -> exn = "ValueError" /\ forall t, v <> value t.
Proof.
  intros H. split.
  - unfold of_value in H. repeat destruct (String.eqb _ _); congruence.
  - intros t ->. rewrite of_value_value in H. discriminate.
Qed.

(** [ActionEvent.from_dict] inverts [to_dict]: decoding the dict of an
    event gives the event back, for every action type, content, duration
    and metadata. *)
Theorem from_dict_to_dict {Meta : Type} (empty_meta : Meta)
    (e : action_event) :
  from_dict empty_meta (to_dict e) = Return e.
Proof.
  destruct e as [t c d m]. unfold from_dict, to_dict. cbn [d_action].
  rewrite of_value_value. reflexivity.
Qed.

(** [from_dict] succeeds exactly on dicts whose ["action"] is the value
    of an [ActionType]; it then takes the action type from that value and
    the defaults [""], [0.0] and [{}] for absent keys. *)
Theorem from_dict_success {Meta : Type} (empty_meta : Meta)
    (d : event_dict) (e : action_event) :
  from_dict empty_meta d = Return e <->
  d_action d = Some (value (action_type e)) /\
  content e = default "" (d_content d) /\
  duration e = default 0 (d_duration d) /\
  metadata e = default empty_meta (d_metadata d).
Proof.
  destruct d as [a c du me]; destruct e as [t c' du' me'];
    unfold from_dict; cbn [d_action d_content d_duration d_metadata
                            action_type content duration metadata].
  split.
  - destruct a as [a |]; [| discriminate].
    destruct (of_value a) as [t0 |] eqn:E; [| discriminate].
    intros H; injection H as <- <- <- <-.
    rewrite (of_value_inv _ _ E). repeat split.
  - intros (-> & -> & -> & ->). rewrite of_value_value. reflexivity.
Qed.

Lemma from_dict_success_witness :
  from_dict tt (@mkEventDict unit (Some "wait") None (Some 1.5) None)
    = Return (mkActionEvent WAIT "" 1.5 tt) /\
  d_action (@mkEventDict unit (Some "wait") None (Some 1.5) None)
    = Some (value (action_type (mkActionEvent WAIT "" 1.5 tt))).
Proof.
  split.
  - apply (from_dict_success tt (@mkEventDict unit (Some "wait") None (Some 1.5) None)
             (mkActionEvent WAIT "" 1.5 tt)).
    repeat split.
  - reflexivity.
Defined.

(** [from_dict] raises [KeyError] when the ["action"] key is missing and
    [ValueError] when its value is not one of ["typing"], ["message"],
    ["wait"], ["thinking"]; it raises nothing else. *)
Theorem from_dict_errors {Meta : Type} (empty_meta : Meta)
    (d : event_dict) (exn : string) :
  from_dict empty_meta d = Raise exn ->
  (d_action d = None /\ exn = "KeyError") \/
  (exists a, d_action d = Some a /\ (forall t, a <> value t) /\
             exn = "ValueError").
Proof.
  destruct d as [a c du me]. unfold from_dict. cbn [d_action].
  destruct a as [a |].
  - destruct (of_value a) as [t | x] eqn:E; [discriminate |].
    intros H; injection H as <-. right. exists a.
    destruct (of_value_raise _ _ E) as [-> Hn]. auto.
  - intros H; injection H as <-. left. auto.
Qed.

Lemma from_dict_errors_witness :
  from_dict tt (@mkEventDict unit (Some "typed") None None None) = Raise "ValueError"
  /\ ((d_action (@mkEventDict unit (Some "typed") None None None) = None /\
       "ValueError" = "KeyError") \/
      (exists a, d_action (@mkEventDict unit (Some "typed") None None None) = Some a
                 /\ (forall t, a <> value t) /\ "ValueError" = "ValueError")).
Proof.
  split; [reflexivity |].
  apply (from_dict_errors tt (@mkEventDict unit (Some "typed") None None None)).
  reflexivity.
Defined.

End ActionEventExtra.

Module PipelineExtra.
Import Hippocampus Pipeline.

Lemma filter_all {A} (P : A -> bool) l :
  (forall x, In x l -> P x = true) -> List.filter P l = l.
Proof.
  induction l as [| a l IH]; intros H; [reflexivity |]. cbn.
  rewrite (H a (or_introl eq_refl)). f_equal. apply IH.
  intros x Hx. apply H. right. exact Hx.
Qed.

Lemma in_firstn_in {A} n (l : list A) x : In x (firstn n l) -> In x l.
Proof.
  intros H. rewrite <- (firstn_skipn n l). apply in_or_app. left. exact H.
Qed.

Lemma NoDup_firstn' {A} n (l : list A) : List.NoDup l -> List.NoDup (firstn n l).
Proof.
  intros H. rewrite <- (firstn_skipn n l) in H.
  exact (List.NoDup_app_remove_r _ _ H).
Qed.

(** [_enhance_memories] returns the first [min(3, U)] memories with user
    info, in their input order, followed by the first [min(2, G)]
    memories without, in their input order, where [U] and [G] count them
    in the input; so at most five memories, all of its input, none
    duplicated. *)
Theorem enhance_memories_shape (ms : list memory) :
  let r := _enhance_memories ms in
  r = firstn 3 (List.filter has_user_info ms) ++
      firstn 2 (List.filter (fun m => negb (has_user_info m)) ms) /\
  (length r <= 5)%nat /\
  (forall m, In m r -> In m ms) /\
  (exists A B, r = A ++ B /\
     Forall (fun m => has_user_info m = true) A /\
     Forall (fun m => has_user_info m = false) B) /\
  length (List.filter has_user_info r)
    = Nat.min 3 (length (List.filter has_user_info ms)) /\
  length (List.filter (fun m => negb (has_user_info m)) r)
    = Nat.min 2 (length (List.filter (fun m => negb (has_user_info m)) ms)) /\
  (List.NoDup ms -> List.NoDup r).
Proof.
  intros r. subst r.
  destruct ms as [| m0 ms0].
  { cbn. split; [reflexivity |]. split; [lia |]. split; [tauto |].
    split; [exists [], []; repeat split; constructor |].
    split; [reflexivity |]. split; [reflexivity |]. intros _; constructor. }
  set (ms := m0 :: ms0).
  assert (Hr : _enhance_memories ms
    = firstn 3 (List.filter has_user_info ms) ++
      firstn 2 (List.filter (fun m => negb (has_user_info m)) ms))
    by reflexivity.
  rewrite Hr. clear Hr. split; [reflexivity |].
  set (U := List.filter has_user_info ms).
  set (G := List.filter (fun m => negb (has_user_info m)) ms).
  assert (HU : forall m, In m (firstn 3 U) -> has_user_info m = true).
  { intros m Hm. apply in_firstn_in, filter_In in Hm. tauto. }
  assert (HG : forall m, In m (firstn 2 G) -> has_user_info m = false).
  { intros m Hm. apply in_firstn_in, filter_In in Hm as [_ Hm].
    destruct (has_user_info m); [discriminate | reflexivity]. }
  repeat split.
  - rewrite length_app, !length_firstn. lia.
  - intros m Hm. apply in_app_or in Hm as [Hm | Hm];
      apply in_firstn_in, filter_In in Hm; tauto.
  - exists (firstn 3 U), (firstn 2 G). repeat split;
      apply List.Forall_forall; assumption.
  - rewrite List.filter_app, filter_all by exact HU.
    rewrite (SortFacts.filter_none has_user_info (firstn 2 G)) by exact HG.
    rewrite app_nil_r, length_firstn. reflexivity.
  - rewrite List.filter_app.
    rewrite (SortFacts.filter_none (fun m => negb (has_user_info m))
               (firstn 3 U)).
    2: { intros z Hz. rewrite (HU z Hz). reflexivity. }
    rewrite filter_all.
    2: { intros z Hz. rewrite (HG z Hz). reflexivity. }
    rewrite app_nil_l, length_firstn. reflexivity.
  - intros Hnd. apply List.NoDup_app.
    + apply NoDup_firstn', List.NoDup_filter, Hnd.
    + apply NoDup_firstn', List.NoDup_filter, Hnd.
    + intros m Hm Hm'. pose proof (HG m Hm') as Hf.
      rewrite (HU m Hm) in Hf. discriminate.
Qed.

End PipelineExtra.
